(** * The request queue and the Google PaLM route of the proxy

    A shallow embedding of [src/proxy/palm.ts] (the PaLM route: request
    rewriter, response handler, PaLM-to-OpenAI transform) and of the request
    queue it is wrapped in ([enqueue], [dequeue], [cleanQueue],
    [getEstimatedWaitTime], [createQueueMiddleware], [initStreaming]).

    Conventions.
    - A JavaScript value of type [any] is a [Js.value]; integers stand for the
      numbers the code handles (millisecond clocks, token counts, lengths).
    - A request is a JavaScript object that the queue holds by reference and
      mutates in place.  The state therefore has a store [heap : ref -> Request]
      and the queue is a list of references; the same reference twice in the
      list is the same object queued twice.
    - [throw] is the [Throw] case of [result]; state-changing functions return
      the new state.
    - What the sources import from files that are not part of the sources
      (the shared-address set, the model-family look-ups, the rewriter stages)
      is a [Variable] of the section that uses it. *)

From Stdlib Require Import ZArith QArith Qround Qabs Lia String Ascii List Bool
  DecimalString.
From stdpp Require Import base gmap strings.
Import ListNotations.

Set Warnings "-register-all".
Local Open Scope string_scope.
Local Open Scope Z_scope.

(** ** JavaScript values and strings *)

Module Js.

Inductive value : Type :=
| JUndefined
| JNull
| JBool (b : bool)
| JNum (n : Z)
| JStr (s : string)
| JArr (elems : list value)
| JObj (fields : list (string * value)).

(** What a [throw] carries: [new Error(message)], or the [TypeError] the
    engine raises when a property of [null] or [undefined] is read or set
    (its argument names the property). *)
Inductive exn : Type :=
| Error (message : string)
| TypeError (property : string).

Definition message (e : exn) : string :=
  match e with
  | Error m => m
  | TypeError p => "Cannot read properties of undefined (reading '" ++ p ++ "')"
  end.

Inductive result (A : Type) : Type :=
| Ok (a : A)
| Throw (e : exn).
Arguments Ok {A} a.
Arguments Throw {A} e.

Definition bind {A B} (m : result A) (k : A -> result B) : result B :=
  match m with
  | Ok a => k a
  | Throw e => Throw e
  end.

(** [if (v)]: the falsy values are [undefined], [null], [false], [0] and
    the empty string. *)
Definition truthy (v : value) : bool :=
  match v with
  | JUndefined | JNull => false
  | JBool b => b
  | JNum n => negb (n =? 0)
  | JStr s => negb (String.eqb s "")
  | JArr _ | JObj _ => true
  end.

(** [typeof v]. *)
Definition typeof (v : value) : string :=
  match v with
  | JUndefined => "undefined"
  | JBool _ => "boolean"
  | JNum _ => "number"
  | JStr _ => "string"
  | JNull | JArr _ | JObj _ => "object"
  end.

Fixpoint assoc (k : string) (fields : list (string * value)) : value :=
  match fields with
  | [] => JUndefined
  | (k', v) :: rest => if String.eqb k k' then v else assoc k rest
  end.

(** [o[k] = v] on the fields of an object: an existing key keeps its place,
    a new key goes last. *)
Fixpoint assoc_set (k : string) (v : value) (fields : list (string * value))
  : list (string * value) :=
  match fields with
  | [] => [(k, v)]
  | (k', v') :: rest =>
      if String.eqb k k' then (k, v) :: rest else (k', v') :: assoc_set k v rest
  end.

Definition string_of_nat (n : nat) : string :=
  NilZero.string_of_uint (Nat.to_uint n).

Definition string_of_Z (z : Z) : string :=
  NilZero.string_of_int (Z.to_int z).

(** [v.k] for a property name [k] that is not an index and not [length]. *)
Definition getProp (v : value) (k : string) : result value :=
  match v with
  | JUndefined | JNull => Throw (TypeError k)
  | JObj fields => Ok (assoc k fields)
  | JBool _ | JNum _ | JStr _ | JArr _ => Ok JUndefined
  end.

(** [v[i]] for a literal index [i]. *)
Definition getIndex (v : value) (i : nat) : result value :=
  match v with
  | JUndefined | JNull => Throw (TypeError (string_of_nat i))
  | JArr elems => Ok (nth i elems JUndefined)
  | JObj fields => Ok (assoc (string_of_nat i) fields)
  | JStr s =>
      Ok (match String.get i s with
          | Some c => JStr (String c "")
          | None => JUndefined
          end)
  | JBool _ | JNum _ => Ok JUndefined
  end.

(** [v.k = x] on a value whose [typeof] is ["object"]; a named property set
    on an array is not part of what [res.json] serialises. *)
Definition setProp (v : value) (k : string) (x : value) : result value :=
  match v with
  | JUndefined | JNull => Throw (TypeError k)
  | JObj fields => Ok (JObj (assoc_set k x fields))
  | other => Ok other
  end.

(** The replacement text of [String.prototype.replace] for a string pattern
    (no capture groups): [$$], [$&], [$`] and [$'] are expanded, any other
    [$] stays. *)
Fixpoint getSubstitution (matched before after repl : string) : string :=
  match repl with
  | EmptyString => EmptyString
  | String a tl =>
      if Ascii.eqb a "$" then
        match tl with
        | String c rest =>
            if Ascii.eqb c "$" then String "$" (getSubstitution matched before after rest)
            else if Ascii.eqb c "&" then matched ++ getSubstitution matched before after rest
            else if Ascii.eqb c "`" then before ++ getSubstitution matched before after rest
            else if Ascii.eqb c "'" then after ++ getSubstitution matched before after rest
            else String a (getSubstitution matched before after tl)
        | EmptyString => String a EmptyString
        end
      else String a (getSubstitution matched before after tl)
  end.

(** [s.replace(pat, repl)] with a string [pat]: the first occurrence of the
    text [pat] is replaced, and [s] is returned as it is when [pat] does not
    occur in it. *)
Definition replace (s pat repl : string) : string :=
  match String.index 0 pat s with
  | None => s
  | Some i =>
      let before := String.substring 0 i s in
      let after :=
        String.substring (i + String.length pat)
                         (String.length s - (i + String.length pat)) s in
      before ++ getSubstitution pat before after repl ++ after
  end.

(** [`${v}`] for an optional string. *)
Definition template_of (v : option string) : string :=
  match v with
  | Some s => s
  | None => "undefined"
  end.

End Js.

(** ** The data model of the queue *)

Module Queue.
Import Js.

(** [ModelFamily], the partitions of the queue. *)
Inductive ModelFamily : Type :=
| turbo | gpt4 | gpt4_32k | claude | bison | aws_claude.

Definition ModelFamily_eqb (a b : ModelFamily) : bool :=
  match a, b with
  | turbo, turbo | gpt4, gpt4 | gpt4_32k, gpt4_32k
  | claude, claude | bison, bison | aws_claude, aws_claude => true
  | _, _ => false
  end.

(** The dialects of [req.inboundApi] and [req.outboundApi]. *)
Inductive APIFormat : Type :=
| openai | openai_text | anthropic | google_palm.

Record User : Type := { token : string }.

(** The two fields of the parsed body that this code reads. *)
Record Body : Type := {
  model : option string;
  stream : value
}.

(** What [res.write] is given: a text, or the text that
    [buildFakeSse(type, message, req)] builds for the request the response
    belongs to ([buildFakeSse] is imported, its text is kept symbolic). *)
Inductive chunk : Type :=
| Text (s : string)
| FakeSse (type : string) (msg : string).

(** The response object [req.res]. *)
Record Response : Type := {
  headersSent : bool;
  writableEnded : bool;
  written : list chunk;
  sent : option (Z * value)
}.

Inductive timer : Type := Running | Cleared.

(** The request object (the ticket).  [onAborted] is set while the
    [removeFromQueue] closure is registered, as [req.onAborted] and as the
    [close] listener of the response. *)
Record Request : Type := {
  user : option User;
  risuToken : option string;
  ip : string;
  retryCount : option Z;
  startTime : Z;
  queueOutTime : option Z;
  body : Body;
  isStreaming : bool;
  service : string;
  inboundApi : APIFormat;
  outboundApi : APIFormat;
  badSseParser : value;
  promptTokens : option Z;
  outputTokens : option Z;
  debug : value;
  host : option string;
  heartbeatInterval : option timer;
  onAborted : bool;
  res : Response
}.

Definition set_queueOutTime (t : option Z) (r : Request) : Request :=
  {| user := user r; risuToken := risuToken r; ip := ip r;
     retryCount := retryCount r; startTime := startTime r;
     queueOutTime := t; body := body r; isStreaming := isStreaming r;
     service := service r; inboundApi := inboundApi r;
     outboundApi := outboundApi r; badSseParser := badSseParser r;
     promptTokens := promptTokens r; outputTokens := outputTokens r;
     debug := debug r; host := host r;
     heartbeatInterval := heartbeatInterval r; onAborted := onAborted r;
     res := res r |}.

Definition set_heartbeatInterval (h : option timer) (r : Request) : Request :=
  {| user := user r; risuToken := risuToken r; ip := ip r;
     retryCount := retryCount r; startTime := startTime r;
     queueOutTime := queueOutTime r; body := body r;
     isStreaming := isStreaming r; service := service r;
     inboundApi := inboundApi r; outboundApi := outboundApi r;
     badSseParser := badSseParser r; promptTokens := promptTokens r;
     outputTokens := outputTokens r; debug := debug r; host := host r;
     heartbeatInterval := h; onAborted := onAborted r; res := res r |}.

Definition set_onAborted (b : bool) (r : Request) : Request :=
  {| user := user r; risuToken := risuToken r; ip := ip r;
     retryCount := retryCount r; startTime := startTime r;
     queueOutTime := queueOutTime r; body := body r;
     isStreaming := isStreaming r; service := service r;
     inboundApi := inboundApi r; outboundApi := outboundApi r;
     badSseParser := badSseParser r; promptTokens := promptTokens r;
     outputTokens := outputTokens r; debug := debug r; host := host r;
     heartbeatInterval := heartbeatInterval r; onAborted := b; res := res r |}.

Definition set_res (s : Response) (r : Request) : Request :=
  {| user := user r; risuToken := risuToken r; ip := ip r;
     retryCount := retryCount r; startTime := startTime r;
     queueOutTime := queueOutTime r; body := body r;
     isStreaming := isStreaming r; service := service r;
     inboundApi := inboundApi r; outboundApi := outboundApi r;
     badSseParser := badSseParser r; promptTokens := promptTokens r;
     outputTokens := outputTokens r; debug := debug r; host := host r;
     heartbeatInterval := heartbeatInterval r; onAborted := onAborted r;
     res := s |}.

Definition set_inboundApi (a : APIFormat) (r : Request) : Request :=
  {| user := user r; risuToken := risuToken r; ip := ip r;
     retryCount := retryCount r; startTime := startTime r;
     queueOutTime := queueOutTime r; body := body r;
     isStreaming := isStreaming r; service := service r;
     inboundApi := a; outboundApi := outboundApi r;
     badSseParser := badSseParser r; promptTokens := promptTokens r;
     outputTokens := outputTokens r; debug := debug r; host := host r;
     heartbeatInterval := heartbeatInterval r; onAborted := onAborted r;
     res := res r |}.

Definition set_retryCount (n : option Z) (r : Request) : Request :=
  {| user := user r; risuToken := risuToken r; ip := ip r;
     retryCount := n; startTime := startTime r;
     queueOutTime := queueOutTime r; body := body r;
     isStreaming := isStreaming r; service := service r;
     inboundApi := inboundApi r; outboundApi := outboundApi r;
     badSseParser := badSseParser r; promptTokens := promptTokens r;
     outputTokens := outputTokens r; debug := debug r; host := host r;
     heartbeatInterval := heartbeatInterval r; onAborted := onAborted r;
     res := res r |}.

(** [res.write(c)]. *)
Definition write (c : chunk) (s : Response) : Response :=
  {| headersSent := true; writableEnded := writableEnded s;
     written := (written s ++ [c])%list; sent := sent s |}.

(** [res.end()]. *)
Definition end_ (s : Response) : Response :=
  {| headersSent := headersSent s; writableEnded := true;
     written := written s; sent := sent s |}.

(** [res.status(code).json(v)]. *)
Definition status_json (code : Z) (v : value) (s : Response) : Response :=
  {| headersSent := true; writableEnded := true;
     written := written s; sent := Some (code, v) |}.

(** [initializeSseStream(res)] is imported from the shared streaming helpers:
    it sets the event-stream headers and flushes them, and writes no body. *)
Definition initializeSseStream (s : Response) : Response :=
  {| headersSent := true; writableEnded := writableEnded s;
     written := written s; sent := sent s |}.

(** One entry of [waitTimes]. *)
Record WaitTime : Type := {
  partition : ModelFamily;
  start : Z;
  end_time : Z;
  isDeprioritized : bool
}.

(** References to request objects, and the module state: the objects, the
    [queue] array and the [waitTimes] array. *)
Definition ref : Type := nat.
Bind Scope nat_scope with ref.

Record State : Type := {
  heap : ref -> Request;
  queue : list ref;
  waitTimes : list WaitTime
}.

Definition update (h : ref -> Request) (r : ref) (f : Request -> Request)
  : ref -> Request :=
  fun x => if Nat.eqb x r then f (h r) else h x.

Definition with_heap (h : ref -> Request) (st : State) : State :=
  {| heap := h; queue := queue st; waitTimes := waitTimes st |}.

Definition with_queue (q : list ref) (st : State) : State :=
  {| heap := heap st; queue := q; waitTimes := waitTimes st |}.

Definition with_waitTimes (w : list WaitTime) (st : State) : State :=
  {| heap := heap st; queue := queue st; waitTimes := w |}.

(** [obj.field = ...] on the object behind [r]. *)
Definition mutate (r : ref) (f : Request -> Request) (st : State) : State :=
  with_heap (update (heap st) r f) st.

(** *** Arrays *)

(** [a.indexOf(x)], by reference; [-1] when [x] is not an element. *)
Fixpoint indexOf (x : ref) (a : list ref) : Z :=
  match a with
  | [] => -1
  | y :: rest =>
      if Nat.eqb y x then 0
      else let i := indexOf x rest in if i <? 0 then -1 else i + 1
  end.

(** [a.findIndex(p)]. *)
Fixpoint findIndex {A} (p : A -> bool) (a : list A) : Z :=
  match a with
  | [] => -1
  | y :: rest =>
      if p y then 0
      else let i := findIndex p rest in if i <? 0 then -1 else i + 1
  end.

(** [a.splice(start, deleteCount)]: the removed elements and what is left
    of [a].  A negative [start] counts from the end of the array. *)
Definition splice {A} (a : list A) (start_ deleteCount : Z) : list A * list A :=
  let len := Z.of_nat (length a) in
  let actualStart :=
    if start_ <? 0 then Z.max (len + start_) 0 else Z.min start_ len in
  let actualDeleteCount := Z.min (Z.max deleteCount 0) (len - actualStart) in
  let i := Z.to_nat actualStart in
  let n := Z.to_nat actualDeleteCount in
  (firstn n (skipn i a), (firstn i a ++ skipn (i + n) a)%list).

(** [a.sort(cmp)].  The sort of the engine is stable; for a comparator that
    orders by a key, as the one of [getQueueForPartition], every stable sort
    gives the list that this insertion sort gives. *)
Fixpoint insert {A} (cmp : A -> A -> Z) (x : A) (sorted : list A) : list A :=
  match sorted with
  | [] => [x]
  | y :: rest => if 0 <? cmp x y then y :: insert cmp x rest else x :: sorted
  end.

Definition sort {A} (cmp : A -> A -> Z) (a : list A) : list A :=
  fold_right (insert cmp) [] a.

(** [a.reduce(f)] without an initial value, on a non-empty array given as
    its first element and the rest. *)
Definition reduce {A} (f : A -> A -> A) (first : A) (rest : list A) : A :=
  fold_left f rest first.

(** [Math.round] of a quotient: halves go up. *)
Definition round (q : Q) : Z := Qfloor (q + (1 # 2))%Q.

(** The numbers of the program are IEEE-754 doubles.  The clock values and
    their sums and differences are integers below [2 ^ 53], which doubles hold
    exactly; a quotient [x / y] is the double nearest to the exact quotient,
    halves going to the even significand.  [toDouble q] is that double, as a
    rational: a significand of 53 bits times a power of two.  (Quotients of
    such integers by array lengths and by [1000] are far from the ends of the
    exponent range, which is not modelled.) *)

(** [a / d] with both scaled by [2 ^ e], kept as a pair of integers. *)
Definition scaled (a d e : Z) : Z * Z :=
  if 0 <=? e then (a, d * 2 ^ e) else (a * 2 ^ (- e), d).

(** The exponent [b] with [2 ^ b <= a / d < 2 ^ (b + 1)], for positive [a]
    and [d]. *)
Definition binade (a d : Z) : Z :=
  let k := Z.log2 a - Z.log2 d in
  let (x, y) := scaled a d k in
  if y <=? x then k else k - 1.

(** The integer nearest to [num / den], halves going to the even one. *)
Definition nearestEven (num den : Z) : Z :=
  let qz := num / den in
  let r := num mod den in
  if 2 * r <? den then qz
  else if den <? 2 * r then qz + 1
  else if Z.even qz then qz else qz + 1.

Definition toDouble (q : Q) : Q :=
  let n := Qnum q in
  let d := Z.pos (Qden q) in
  if n =? 0 then 0%Q
  else
    let a := Z.abs n in
    let e := binade a d - 52 in
    let (num, den) := scaled a d e in
    let m := Z.sgn n * nearestEven num den in
    if 0 <=? e then inject_Z (m * 2 ^ e)
    else Qred (Qmake m (Z.to_pos (2 ^ (- e)))).

Definition nl : string := String "010"%char EmptyString.

(** *** The operations of the queue *)

(** Maximum number of queue slots for Agnai.chat requests. *)
Definition AGNAI_CONCURRENCY_LIMIT : nat := 5.
(** Maximum number of queue slots for individual users. *)
Definition USER_CONCURRENCY_LIMIT : nat := 1.

Section Imports.

(** [SHARED_IP_ADDRESSES] of the rate limiter, the family look-ups of the
    shared model table, [process.env.NODE_ENV] and the text of [err.stack]. *)
Variable SHARED_IP_ADDRESSES : gset string.
Variable getClaudeModelFamily : string -> ModelFamily.
Variable getOpenAIModelFamily : string -> ModelFamily.
Variable getGooglePalmModelFamily : string -> ModelFamily.
Variable NODE_ENV : option string.
Variable stack : exn -> string.

Definition isFromSharedIp (req : Request) : bool :=
  bool_decide (ip req ∈ SHARED_IP_ADDRESSES).

Definition getIdentifier (req : Request) : string :=
  match user req with
  | Some u => token u
  | None =>
      match risuToken req with
      | Some t =>
          if truthy (JStr t) then t
          else if isFromSharedIp req then "shared-ip" else ip req
      | None => if isFromSharedIp req then "shared-ip" else ip req
      end
  end.

Definition sharesIdentifierWith (incoming queued : Request) : bool :=
  String.eqb (getIdentifier queued) (getIdentifier incoming).

Definition getPartitionForRequest (req : Request) : ModelFamily :=
  let model_ :=
    match model (body req) with
    | Some m => m
    | None => "gpt-3.5-turbo"
    end in
  if String.eqb (service req) "aws" then aws_claude
  else match outboundApi req with
       | anthropic => getClaudeModelFamily model_
       | openai | openai_text => getOpenAIModelFamily model_
       | google_palm => getGooglePalmModelFamily model_
       end.

(** [getEstimatedWaitTime(partition)] at the clock value [now]. *)
Definition getEstimatedWaitTime (now : Z) (st : State) (p : ModelFamily) : Q :=
  let recentWaits :=
    List.filter
      (fun wait =>
         let isSamePartition := ModelFamily_eqb (partition wait) p in
         let isRecent := now - end_time wait <? 300 * 1000 in
         let isNormalPriority := negb (isDeprioritized wait) in
         isSamePartition && isRecent && isNormalPriority)
      (waitTimes st) in
  if Nat.eqb (length recentWaits) 0 then 0%Q
  else
    let total :=
      fold_left (fun sum wait => sum + end_time wait - start wait) recentWaits 0 in
    toDouble (inject_Z total / inject_Z (Z.of_nat (length recentWaits)))%Q.

Definition initStreaming (st : State) (r : ref) : State :=
  let st := mutate r (fun q => set_res (initializeSseStream (res q)) q) st in
  if truthy (badSseParser (heap st r)) then st
  else
    mutate r
      (fun q =>
         set_res
           (write (Text (": joining queue at position "
                           ++ string_of_nat (length (queue st)) ++ nl ++ nl))
                  (res q)) q)
      st.

(** One firing of the heartbeat callback that [enqueue] registers with
    [setInterval], at the clock value [now]. *)
Definition heartbeat (now : Z) (st : State) (r : ref) : State :=
  let req := heap st r in
  if bool_decide (NODE_ENV = Some "production") then
    if negb (truthy (badSseParser req)) then
      mutate r
        (fun q => set_res (write (Text (": queue heartbeat" ++ nl ++ nl)) (res q)) q)
        st
    else st
  else
    let partition_ := getPartitionForRequest req in
    let avgWait :=
      round (toDouble (getEstimatedWaitTime now st partition_ / inject_Z 1000)) in
    let currentDuration :=
      round (toDouble (inject_Z (now - startTime req) / inject_Z 1000)) in
    let debugMsg :=
      "queue length: " ++ string_of_nat (length (queue st))
        ++ "; elapsed time: " ++ string_of_Z currentDuration
        ++ "s; avg wait: " ++ string_of_Z avgWait ++ "s" in
    mutate r (fun q => set_res (write (FakeSse "heartbeat" debugMsg) (res q)) q) st.

(** The test [stream === "true" || stream === true || req.isStreaming]. *)
Definition optedIntoStreaming (req : Request) : bool :=
  match stream (body req) with
  | JStr s => String.eqb s "true" || isStreaming req
  | JBool true => true
  | _ => isStreaming req
  end.

(** The admission test at the head of [enqueue]. *)
Definition admission (st : State) (req : Request) : result unit :=
  let enqueuedRequestCount :=
    length (List.filter (fun q => sharesIdentifierWith req (heap st q)) (queue st)) in
  let isGuest := match user req with Some _ => false | None => true end in
  let isSharedIp := isFromSharedIp req in
  let maxConcurrentQueuedRequests :=
    if isGuest && isSharedIp then AGNAI_CONCURRENCY_LIMIT
    else USER_CONCURRENCY_LIMIT in
  if Nat.leb maxConcurrentQueuedRequests enqueuedRequestCount then
    if isSharedIp then
      match retryCount req with
      | Some 0 => Throw (Error "Too many agnai.chat requests are already queued")
      | _ => Ok tt
      end
    else Throw (Error "Your IP or token already has a request in the queue")
  else Ok tt.

Definition enqueue (st : State) (r : ref) : result State :=
  bind (admission st (heap st r)) (fun _ =>
    let st := with_queue (queue st ++ [r])%list st in
    let st := mutate r (set_queueOutTime (Some 0)) st in
    let st :=
      if optedIntoStreaming (heap st r) then
        let st :=
          if negb (headersSent (res (heap st r))) then initStreaming st r
          else st in
        mutate r (set_heartbeatInterval (Some Running)) st
      else st in
    Ok (mutate r (set_onAborted true) st)).

(** The [removeFromQueue] closure that [enqueue] registers for the [close]
    event of the response. *)
Definition removeFromQueue (st : State) (r : ref) : State :=
  let index := indexOf r (queue st) in
  let st :=
    if negb (index =? -1) then with_queue (snd (splice (queue st) index 1)) st
    else st in
  match heartbeatInterval (heap st r) with
  | Some _ => mutate r (set_heartbeatInterval (Some Cleared)) st
  | None => st
  end.

Definition getQueueForPartition (st : State) (p : ModelFamily) : list ref :=
  sort
    (fun a b =>
       let aIsExempted := isFromSharedIp (heap st a) in
       let bIsExempted := isFromSharedIp (heap st b) in
       if aIsExempted && negb bIsExempted then 1
       else if negb aIsExempted && bIsExempted then -1
       else 0)
    (List.filter
       (fun req => ModelFamily_eqb (getPartitionForRequest (heap st req)) p)
       (queue st)).

(** [dequeue(partition)] at the clock value [now]: the request it returns
    and the state it leaves. *)
Definition dequeue (now : Z) (st : State) (p : ModelFamily) : option ref * State :=
  match getQueueForPartition st p with
  | [] => (None, st)
  | first :: rest =>
      let req :=
        reduce
          (fun prev curr =>
             if startTime (heap st prev) <? startTime (heap st curr)
             then prev else curr)
          first rest in
      let st := with_queue (snd (splice (queue st) (indexOf req (queue st)) 1)) st in
      let st :=
        if onAborted (heap st req) then mutate req (set_onAborted false) st
        else st in
      let st :=
        match heartbeatInterval (heap st req) with
        | Some _ => mutate req (set_heartbeatInterval (Some Cleared)) st
        | None => st
        end in
      (Some req, mutate req (set_queueOutTime (Some now)) st)
  end.

Definition killQueuedRequest (st : State) (r : ref) : State :=
  let res_ := res (heap st r) in
  if writableEnded res_ then st
  else
    let message_ :=
      "Your request has been terminated by the proxy because it has been in the queue for more than 5 minutes. The queue is currently "
        ++ string_of_nat (length (queue st)) ++ " requests long." in
    if headersSent res_ then
      mutate r
        (fun q =>
           set_res (end_ (write (FakeSse "proxy queue error" message_) (res q))) q)
        st
    else
      mutate r
        (fun q =>
           set_res (status_json 500 (JObj [("error", JStr message_)]) (res q)) q)
        st.

(** One run of [cleanQueue] at the clock value [now]. *)
Definition cleanQueue (now : Z) (st : State) : State :=
  let oldRequests :=
    List.filter (fun req => 5 * 60 * 1000 <? now - startTime (heap st req))
                (queue st) in
  let st := fold_left killQueuedRequest oldRequests st in
  let index :=
    findIndex (fun waitTime => 300 * 1000 <? now - end_time waitTime)
              (waitTimes st) in
  with_waitTimes (snd (splice (waitTimes st) 0 (index + 1))) st.

(** [trackWaitTime(req)] at the clock value [now]. *)
Definition trackWaitTime (now : Z) (st : State) (r : ref) : State :=
  let req := heap st r in
  with_waitTimes
    (waitTimes st
       ++ [{| partition := getPartitionForRequest req;
              start := startTime req;
              end_time := match queueOutTime req with Some t => t | None => now end;
              isDeprioritized := isFromSharedIp req |}])%list
    st.

(** The handler that [createQueueMiddleware] returns, up to the call of the
    proxy middleware (which [req.proceed] makes once the request is
    dequeued). *)
Definition createQueueMiddleware (st : State) (r : ref) : State :=
  match enqueue st r with
  | Ok st' => st'
  | Throw err =>
      mutate r
        (fun q =>
           set_res
             (status_json 429
                (JObj [("type", JStr "proxy_error");
                       ("message", JStr (message err));
                       ("stack", JStr (stack err));
                       ("proxy_note",
                        JStr "Only one request can be queued at a time. If you don't have another request queued, your IP or user token might be in use by another request.")])
                (res q)) q)
        st
  end.

End Imports.

End Queue.

(** ** The PaLM route *)

Module Palm.
Import Js Queue.

(** The outgoing request [proxyReq] ([http.ClientRequest]): its path, what
    the rewriter stages put on it, and the error it was destroyed with. *)
Record ClientRequest : Type := {
  path : string;
  headers : list (string * string);
  payload : option string;
  destroyed : option exn
}.

Definition set_path (p : string) (c : ClientRequest) : ClientRequest :=
  {| path := p; headers := headers c; payload := payload c;
     destroyed := destroyed c |}.

(** [proxyReq.destroy(error)]. *)
Definition destroy (e : exn) (c : ClientRequest) : ClientRequest :=
  {| path := path c; headers := headers c; payload := payload c;
     destroyed := Some e |}.

(** A rewriter stage [rewriter(proxyReq, req, res, {})]: it mutates the two
    requests and may throw. *)
Definition Rewriter : Type :=
  ClientRequest -> Request -> (ClientRequest * Request) * option exn.

(** The [for] loop over [rewriterPipeline]: the stages run in order until one
    throws. *)
Fixpoint runPipeline (pipeline : list Rewriter) (c : ClientRequest) (req : Request)
  : (ClientRequest * Request) * option exn :=
  match pipeline with
  | [] => ((c, req), None)
  | rewriter :: rest =>
      match rewriter c req with
      | ((c', req'), None) => runPipeline rest c' req'
      | (s, Some error) => (s, Some error)
      end
  end.

(** The path that [rewritePalmRequest] assigns to [proxyReq.path]. *)
Definition rewrittenPath (path_ : string) (req : Request) : string :=
  replace path_ "^/v1/chat/completions"
          ("/v1beta2/models/" ++ template_of (model (body req)) ++ ":generateText").

Section Imports.

(** The rewriter stages of the request middleware and [config.promptLogging]. *)
Variable applyQuotaLimits addKey languageFilter : Rewriter.
Variable blockZoomerOrigins removeOriginHeaders finalizeBody : Rewriter.
Variable promptLogging : bool.

(** [rewritePalmRequest(proxyReq, req, res)]: the two requests as the call
    leaves them, and the error that the call throws to its caller, if any.
    An error of a rewriter stage is caught and destroys [proxyReq]; the
    streaming error is thrown before the [try]. *)
Definition rewritePalmRequest (proxyReq : ClientRequest) (req : Request)
  : (ClientRequest * Request) * option exn :=
  if truthy (stream (body req)) then
    ((proxyReq, req),
     Some (Error "Google PaLM API doesn't support streaming requests"))
  else
    let proxyReq := set_path (rewrittenPath (path proxyReq) req) proxyReq in
    let rewriterPipeline :=
      [applyQuotaLimits; addKey; languageFilter; blockZoomerOrigins;
       removeOriginHeaders; finalizeBody] in
    match runPipeline rewriterPipeline proxyReq req with
    | (s, None) => (s, None)
    | ((c, req'), Some error) => ((destroy error c, req'), None)
    end.

Definition optional_number (n : option Z) : value :=
  match n with
  | Some k => JNum k
  | None => JUndefined
  end.

Definition optional_string (s : option string) : value :=
  match s with
  | Some k => JStr k
  | None => JUndefined
  end.

(** [a ?? 0] on an optional count. *)
Definition or_zero (n : option Z) : Z :=
  match n with
  | Some k => k
  | None => 0
  end.

(** [transformPalmResponse(palmRespBody, req)], with the identifier that
    [v4()] draws and the clock value that [Date.now()] reads. *)
Definition transformPalmResponse (uuid : string) (now : Z)
    (palmRespBody : value) (req : Request) : result value :=
  let totalTokens := or_zero (promptTokens req) + or_zero (outputTokens req) in
  bind (getProp palmRespBody "candidates") (fun candidates =>
  bind (getIndex candidates 0) (fun candidate =>
  bind (getProp candidate "output") (fun output =>
    Ok (JObj
          [("id", JStr ("plm-" ++ uuid));
           ("object", JStr "chat.completion");
           ("created", JNum now);
           ("model", optional_string (model (body req)));
           ("usage",
            JObj [("prompt_tokens", optional_number (promptTokens req));
                  ("completion_tokens", optional_number (outputTokens req));
                  ("total_tokens", JNum totalTokens)]);
           ("choices",
            JArr [JObj [("message",
                         JObj [("role", JStr "assistant");
                               ("content", output)]);
                        ("finish_reason", JNull);
                        ("index", JNum 0)]])])))).

(** [palmResponseHandler(_proxyRes, req, res, body)]: the response as the
    handler leaves it. *)
Definition palmResponseHandler (uuid : string) (now : Z)
    (req : Request) (body_ : value) : result Response :=
  if negb (String.eqb (typeof body_) "object") then
    Throw (Error "Expected body to be an object")
  else
    bind
      (if promptLogging then
         setProp body_ "proxy_note"
           (JStr ("Prompts are logged on this proxy instance. See "
                    ++ template_of (host req) ++ " for more information."))
       else Ok body_)
      (fun body_ =>
    bind
      (match inboundApi req with
       | openai => transformPalmResponse uuid now body_ req
       | _ => Ok body_
       end)
      (fun body_ =>
    bind
      (if truthy (debug req) then
         setProp body_ "proxy_tokenizer_debug_info" (debug req)
       else Ok body_)
      (fun body_ => Ok (status_json 200 body_ (res req))))).

End Imports.

End Palm.

(** ** Notions that the properties are stated with *)

Module Statements.
Import Js Queue Palm.

Section Imports.

Variable SHARED_IP_ADDRESSES : gset string.
Variable getClaudeModelFamily : string -> ModelFamily.
Variable getOpenAIModelFamily : string -> ModelFamily.
Variable getGooglePalmModelFamily : string -> ModelFamily.
Variable NODE_ENV : option string.
Variable stack : exn -> string.

(** The number of queued tickets that share the identity of [req]. *)
Definition queuedWithIdentity (st : State) (req : Request) : nat :=
  length
    (List.filter
       (fun q => String.eqb (getIdentifier SHARED_IP_ADDRESSES (heap st q))
                            (getIdentifier SHARED_IP_ADDRESSES req))
       (queue st)).

(** The cap on queued tickets per identity: five for a ticket without a user
    token that comes from a shared address, one for every other ticket. *)
Definition identityCap (req : Request) : nat :=
  match user req with
  | Some _ => 1
  | None => if isFromSharedIp SHARED_IP_ADDRESSES req then 5 else 1
  end.

(** The cap of the ticket is reached, and the ticket is not a retry from a
    shared address. *)
Definition overCap (st : State) (req : Request) : Prop :=
  (identityCap req <= queuedWithIdentity st req)%nat
  /\ (isFromSharedIp SHARED_IP_ADDRESSES req = false \/ retryCount req = Some 0).

(** What the proxy executor does to a ticket before it puts it back into the
    queue: the retry count goes up by one. *)
Definition countRetry (q : Request) : Request :=
  set_retryCount (Some (or_zero (retryCount q) + 1)) q.

(** One operation on the module state. *)
Inductive step : State -> State -> Prop :=
| step_enqueue st r st' :
    enqueue SHARED_IP_ADDRESSES st r = Ok st' -> step st st'
| step_middleware st r :
    step st (createQueueMiddleware SHARED_IP_ADDRESSES stack st r)
| step_dequeue now st p :
    step st (snd (dequeue SHARED_IP_ADDRESSES getClaudeModelFamily
                          getOpenAIModelFamily getGooglePalmModelFamily now st p))
| step_close st r :
    step st (removeFromQueue st r)
| step_clean now st :
    step st (cleanQueue now st)
| step_heartbeat now st r :
    step st (heartbeat getClaudeModelFamily getOpenAIModelFamily
                       getGooglePalmModelFamily NODE_ENV now st r)
| step_track now st r :
    step st (trackWaitTime SHARED_IP_ADDRESSES getClaudeModelFamily
                           getOpenAIModelFamily getGooglePalmModelFamily now st r)
| step_retry st r :
    step st (mutate r countRetry st).

(** The states that the operations reach from an empty queue. *)
Inductive reachable : State -> Prop :=
| reachable_start h :
    reachable {| heap := h; queue := []; waitTimes := [] |}
| reachable_step st st' :
    reachable st -> step st st' -> reachable st'.

End Imports.

(** The number of times the reference [r] occurs in the queue. *)
Definition occurrences (r : ref) (q : list ref) : nat :=
  count_occ Nat.eq_dec q r.

(** [st'] has the queue of [st] and requests with the addresses of [st]. *)
Definition sameQueue (st st' : State) : Prop :=
  queue st' = queue st /\ forall x, ip (heap st' x) = ip (heap st x).

(** [st'] has requests with the addresses of [st], and no reference occurs in
    its queue more often than in the queue of [st]. *)
Definition shrunk (st st' : State) : Prop :=
  (forall r, (occurrences r (queue st') <= occurrences r (queue st))%nat)
  /\ forall x, ip (heap st' x) = ip (heap st x).

(** The wait samples that an estimate for [p] at the clock value [now] is
    about: same partition, ended less than five minutes ago, not
    deprioritized. *)
Definition samplesFor (now : Z) (p : ModelFamily) (ws : list WaitTime)
  : list WaitTime :=
  List.filter
    (fun w => ModelFamily_eqb (partition w) p
              && negb (isDeprioritized w)
              && (now - end_time w <? 5 * 60 * 1000))
    ws.

(** The arithmetic mean of a list of integers, [0] for the empty list. *)
Definition mean (l : list Z) : Q :=
  match l with
  | [] => 0%Q
  | _ => Qdiv (inject_Z (fold_right Z.add 0 l)) (inject_Z (Z.of_nat (length l)))
  end.

(** An SSE comment line starts with a colon and a space. *)
Definition isComment (c : chunk) : bool :=
  match c with
  | Text s => String.prefix ": " s
  | FakeSse _ _ => false
  end.

(** A fake event is a text that [buildFakeSse] built. *)
Definition isFakeEvent (c : chunk) : bool :=
  match c with
  | Text _ => false
  | FakeSse _ _ => true
  end.

(** What was written to the client of [r] in [st'] after what had been
    written in [st]. *)
Definition writtenSince (st st' : State) (r : ref) : list chunk :=
  skipn (length (written (res (heap st r)))) (written (res (heap st' r))).

End Statements.

(** ** Sample imports and sample requests

    Concrete values for what the sources import, and the requests of the
    end-to-end scenarios; the closed examples below run the code on them. *)

Module Scenario.
Import Js Queue Palm.

(** One address of a hosted client product stands for the shared set. *)
Definition sharedAddresses : gset string := {[ "203.0.113.9" ]}.

(** Sample family look-ups: by prefix of the model name, [turbo] when the
    name is not known. *)
Definition openAIFamily (m : string) : ModelFamily :=
  if String.prefix "gpt-4-32k" m then gpt4_32k
  else if String.prefix "gpt-4" m then gpt4
  else turbo.

Definition claudeFamily (m : string) : ModelFamily := claude.

Definition palmFamily (m : string) : ModelFamily := bison.

Definition stackText (e : exn) : string := "Error: " ++ message e.

Definition freshResponse : Response :=
  {| headersSent := false; writableEnded := false; written := []; sent := None |}.

(** A new buffered OpenAI request for [gpt-3.5-turbo] from the address
    [ip_], received at [start_]. *)
Definition ticket (ip_ : string) (start_ : Z) : Request :=
  {| user := None; risuToken := None; ip := ip_; retryCount := Some 0;
     startTime := start_; queueOutTime := None;
     body := {| model := Some "gpt-3.5-turbo"; stream := JUndefined |};
     isStreaming := false; service := "openai";
     inboundApi := openai; outboundApi := openai;
     badSseParser := JUndefined; promptTokens := None; outputTokens := None;
     debug := JUndefined; host := Some "proxy.example";
     heartbeatInterval := None; onAborted := false; res := freshResponse |}.

(** The store that holds the requests [l] at the references [0], [1], ... *)
Definition objects (l : list Request) : ref -> Request :=
  fun r => nth r l (ticket "" 0).

Definition emptyQueue (l : list Request) : State :=
  {| heap := objects l; queue := []; waitTimes := [] |}.

(** Scenario 4: five requests from the shared address and one from a
    regular address, which arrives second. *)
Definition scenario4 : State :=
  fold_left (createQueueMiddleware sharedAddresses stackText)
            [0; 1; 2; 3; 4; 5]%nat
            (emptyQueue [ticket "203.0.113.9" 1000; ticket "198.51.100.4" 2000;
                         ticket "203.0.113.9" 3000; ticket "203.0.113.9" 4000;
                         ticket "203.0.113.9" 5000; ticket "203.0.113.9" 6000]).

(** A retry of a regular address arrives while another request of that
    address is queued. *)
Definition retryWhileQueued : State :=
  createQueueMiddleware sharedAddresses stackText
    (emptyQueue [ticket "198.51.100.4" 1000;
                 set_retryCount (Some 1) (ticket "198.51.100.4" 500)])
    0.

(** One request of the shared address, not queued yet. *)
Definition sharedAlone : State := emptyQueue [ticket "203.0.113.9" 1000].

(** One request of a regular address, queued. *)
Definition regularQueued : State :=
  createQueueMiddleware sharedAddresses stackText
    (emptyQueue [ticket "198.51.100.4" 1000]) 0.

(** A streaming request of a client that passed [?badSseParser=true],
    queued. *)
Definition badParserTicket : Request :=
  {| user := None; risuToken := None; ip := "198.51.100.4";
     retryCount := Some 0; startTime := 1000; queueOutTime := None;
     body := {| model := Some "gpt-3.5-turbo"; stream := JBool true |};
     isStreaming := true; service := "openai";
     inboundApi := openai; outboundApi := openai;
     badSseParser := JStr "true"; promptTokens := None; outputTokens := None;
     debug := JUndefined; host := Some "proxy.example";
     heartbeatInterval := None; onAborted := false; res := freshResponse |}.

Definition badParserWaiting : State :=
  createQueueMiddleware sharedAddresses stackText
    (emptyQueue [badParserTicket]) 0.

(** Two wait samples that are both older than five minutes at the clock
    value [400000]. *)
Definition sample (end_ : Z) : WaitTime :=
  {| partition := turbo; start := 0; end_time := end_; isDeprioritized := false |}.

(** Three recent samples of [turbo], one of them deprioritized, and one of
    [gpt4]. *)
Definition recentSamples : State :=
  {| heap := objects []; queue := [];
     waitTimes :=
       [ {| partition := turbo; start := 1000; end_time := 2000;
            isDeprioritized := false |};
         {| partition := turbo; start := 1000; end_time := 9000;
            isDeprioritized := true |};
         {| partition := gpt4; start := 1000; end_time := 5000;
            isDeprioritized := false |};
         {| partition := turbo; start := 2000; end_time := 4000;
            isDeprioritized := false |} ] |}.

(** Three samples of [turbo] whose durations, [1000], [1000] and [1001],
    have a mean that no double holds. *)
Definition unevenSamples : State :=
  {| heap := objects []; queue := [];
     waitTimes :=
       [ {| partition := turbo; start := 1000; end_time := 2000;
            isDeprioritized := false |};
         {| partition := turbo; start := 2000; end_time := 3000;
            isDeprioritized := false |};
         {| partition := turbo; start := 3000; end_time := 4001;
            isDeprioritized := false |} ] |}.

Definition staleSamples : State :=
  {| heap := objects []; queue := []; waitTimes := [sample 0; sample 1000] |}.

(** Scenario 5: the PaLM request and the outgoing request that the proxy
    library hands to the rewriter. *)
Definition palmTicket : Request :=
  {| user := None; risuToken := None; ip := "198.51.100.4";
     retryCount := Some 0; startTime := 1000; queueOutTime := Some 1050;
     body := {| model := Some "text-bison-001"; stream := JBool false |};
     isStreaming := false; service := "google-palm";
     inboundApi := openai; outboundApi := google_palm;
     badSseParser := JUndefined; promptTokens := Some 3; outputTokens := Some 1;
     debug := JUndefined; host := Some "proxy.example";
     heartbeatInterval := None; onAborted := false; res := freshResponse |}.

Definition outgoing : ClientRequest :=
  {| path := "/v1/chat/completions"; headers := []; payload := None;
     destroyed := None |}.

(** A stage that changes nothing. *)
Definition passThrough : Rewriter := fun c req => ((c, req), None).

(** A stage that edits the path: it appends a query. *)
Definition appendQuery : Rewriter :=
  fun c req => ((set_path (path c ++ "?key=k") c, req), None).

Definition pong : value :=
  JObj [("candidates", JArr [JObj [("output", JStr "pong")]])].

(** The body that PaLM returns when its safety filter blocks the prompt: no
    candidates. *)
Definition blocked : value :=
  JObj [("filters", JArr [JObj [("reason", JStr "SAFETY")]])].

(** The PaLM request with [stream: true]. *)
Definition palmStreaming : Request :=
  {| user := None; risuToken := None; ip := "198.51.100.4";
     retryCount := Some 0; startTime := 1000; queueOutTime := Some 1050;
     body := {| model := Some "text-bison-001"; stream := JBool true |};
     isStreaming := false; service := "google-palm";
     inboundApi := openai; outboundApi := google_palm;
     badSseParser := JUndefined; promptTokens := Some 3; outputTokens := Some 1;
     debug := JUndefined; host := Some "proxy.example";
     heartbeatInterval := None; onAborted := false; res := freshResponse |}.

Definition uuid : string := "9b2f6c1e-5d0a-4c3b-8e7f-1a2b3c4d5e6f".

End Scenario.

(** ** The dispatcher tick and the length of the queue *)

Module Dispatcher.
Import Js Queue.

Section Imports.

Variable SHARED_IP_ADDRESSES : gset string.
Variable getClaudeModelFamily : string -> ModelFamily.
Variable getOpenAIModelFamily : string -> ModelFamily.
Variable getGooglePalmModelFamily : string -> ModelFamily.
(** [keyPool.getLockoutPeriod(model)] as the tick reads it. *)
Variable getLockoutPeriod : string -> Z.

(** The model by which [processQueue] asks for the lockout of a partition. *)
Definition lockoutModel (p : ModelFamily) : string :=
  match p with
  | gpt4_32k => "gpt-4-32k"
  | gpt4 => "gpt-4"
  | turbo => "gpt-3.5-turbo"
  | claude => "claude-v1"
  | bison => "text-bison-001"
  | aws_claude => "anthropic.claude-v2"
  end.

(** The partitions in the order in which [processQueue] visits them. *)
Definition tickOrder : list ModelFamily :=
  [gpt4_32k; gpt4; turbo; claude; bison; aws_claude].

(** One [if (lockout === 0) reqs.push(dequeue(partition))]; [now] is the
    clock value that this [dequeue] reads. *)
Definition visit (now : ModelFamily -> Z)
    (acc : list (option ref) * State) (p : ModelFamily)
  : list (option ref) * State :=
  let (reqs, st) := acc in
  if getLockoutPeriod (lockoutModel p) =? 0 then
    let (req, st') :=
      dequeue SHARED_IP_ADDRESSES getClaudeModelFamily getOpenAIModelFamily
              getGooglePalmModelFamily (now p) st p in
    ((reqs ++ [req])%list, st')
  else (reqs, st).

(** [reqs.filter(Boolean)]. *)
Definition defined (reqs : list (option ref)) : list ref :=
  flat_map (fun o => match o with Some r => [r] | None => [] end) reqs.

(** One run of [processQueue]: the requests that were dequeued, in the order
    in which the tick resumes them (it calls [req.proceed()] on each one that
    has a continuation), and the state it leaves.  The lockouts are read
    before the first [dequeue]. *)
Definition processQueue (now : ModelFamily -> Z) (st : State)
  : list ref * State :=
  let (reqs, st') := fold_left (visit now) tickOrder ([], st) in
  (defined reqs, st').

(** [getQueueLength(partition)]; [None] is the default ["all"]. *)
Definition getQueueLength (st : State) (p : option ModelFamily) : nat :=
  match p with
  | None => length (queue st)
  | Some family =>
      length (getQueueForPartition SHARED_IP_ADDRESSES getClaudeModelFamily
                getOpenAIModelFamily getGooglePalmModelFamily st family)
  end.

End Imports.

End Dispatcher.

(** ** The model list of the PaLM route *)

Module Models.
Import Js Queue.

(** [modelsCache] and [modelsCacheTime]. *)
Record Cache : Type := {
  modelsCache : value;
  modelsCacheTime : Z
}.

(** The module starts with [modelsCache = null] and [modelsCacheTime = 0]. *)
Definition initialCache : Cache :=
  {| modelsCache := JNull; modelsCacheTime := 0 |}.

Definition bisonVariants : list string := ["text-bison-001"].

(** [getModelsResponse()]: what it returns and the cache it leaves.
    [googlePalmKey] is [config.googlePalmKey]; [checked], [created] and
    [stored] are the clock values that the three [new Date().getTime()]
    read. *)
Definition getModelsResponse (googlePalmKey : option string)
    (checked created stored : Z) (c : Cache) : value * Cache :=
  if checked - modelsCacheTime c <? 1000 * 60 then (modelsCache c, c)
  else
    let hasKey :=
      match googlePalmKey with
      | Some k => truthy (JStr k)
      | None => false
      end in
    if negb hasKey then (JObj [("object", JStr "list"); ("data", JArr [])], c)
    else
      let models :=
        map (fun id =>
               JObj [("id", JStr id);
                     ("object", JStr "model");
                     ("created", JNum created);
                     ("owned_by", JStr "google");
                     ("permission", JArr []);
                     ("root", JStr "palm");
                     ("parent", JNull)])
            bisonVariants in
      let fresh := JObj [("object", JStr "list"); ("data", JArr models)] in
      (fresh, {| modelsCache := fresh; modelsCacheTime := stored |}).

(** One call of [getModelsResponse]: the key configured at that moment and
    the three clock values it reads. *)
Record Call : Type := {
  key : option string;
  checked : Z;
  created : Z;
  stored : Z
}.

(** The answers to successive calls, starting with the cache [c]. *)
Fixpoint serve (calls : list Call) (c : Cache) : list value :=
  match calls with
  | [] => []
  | call :: rest =>
      let (v, c') :=
        getModelsResponse (key call) (checked call) (created call)
                          (stored call) c in
      v :: serve rest c'
  end.

(** An object of the shape [{object: "list", data: [...]}]. *)
Definition isModelList (v : value) : Prop :=
  exists data, v = JObj [("object", JStr "list"); ("data", JArr data)].

(** [handleModelRequest(_req, res)]. *)
Definition handleModelRequest (googlePalmKey : option string)
    (checked created stored : Z) (c : Cache) (res_ : Response)
  : Response * Cache :=
  let (v, c') := getModelsResponse googlePalmKey checked created stored c in
  (status_json 200 v res_, c').

End Models.

(** ** The prompt logger *)

Module LogPrompt.
Import Js Queue.

Definition COMPLETE_ENDPOINT : string := "/v1/chat/completions".

Record OaiMessage : Type := {
  role : string;
  content : string
}.

(** What [logQueue.enqueue] is given.  [promptRaw] holds the messages that
    [JSON.stringify] is applied to. *)
Record LogEntry : Type := {
  entryModel : string;
  endpoint : string;
  promptRaw : list OaiMessage;
  promptFlattened : string;
  response : value
}.

(** The fields of the request that the logger reads next to [req.body.model]:
    [req.originalUrl], [req.api] and [req.body.messages]. *)
Record Logged : Type := {
  request : Request;
  originalUrl : string;
  api : string;
  messages : list OaiMessage
}.

(** [s.endsWith(suffix)]. *)
Definition endsWith (s suffix : string) : bool :=
  (String.length suffix <=? String.length s)%nat
  && String.eqb
       (String.substring (String.length s - String.length suffix)
                         (String.length suffix) s)
       suffix.

Definition flattenMessages (ms : list OaiMessage) : string :=
  String.concat nl (map (fun m => role m ++ ": " ++ content m) ms).

Section Imports.

(** [String.prototype.trim] and [config.promptLogging]. *)
Variable trim : string -> string.
Variable promptLogging : bool.

Definition getResponseForModel (model_ : string) (body_ : value) : result value :=
  if String.prefix "claude" model_ then
    bind (getProp body_ "completion") (fun completion =>
      match completion with
      | JStr s => Ok (JStr (trim s))
      | _ => Throw (TypeError "trim")
      end)
  else
    bind (getProp body_ "choices") (fun choices =>
    bind (getIndex choices 0) (fun choice =>
    bind (getProp choice "message") (fun message_ =>
      getProp message_ "content"))).

(** [logPrompt(_proxyRes, req, _res, responseBody)]: the entry that is
    enqueued for logging, if any. *)
Definition logPrompt (req : Logged) (responseBody : value)
  : result (option LogEntry) :=
  if negb promptLogging then Ok None
  else if negb (String.eqb (typeof responseBody) "object") then
    Throw (Error "Expected body to be an object")
  else if negb (endsWith (originalUrl req) COMPLETE_ENDPOINT) then Ok None
  else
    match model (body (request req)) with
    | None => Throw (TypeError "startsWith")
    | Some model_ =>
        let promptFlattened_ := flattenMessages (messages req) in
        bind (getResponseForModel model_ responseBody) (fun response_ =>
          Ok (Some {| entryModel := model_;
                      endpoint := api req;
                      promptRaw := messages req;
                      promptFlattened := promptFlattened_;
                      response := response_ |}))
    end.

End Imports.

End LogPrompt.

(** ** What the operations of the queue leave alone *)

Module Frames.
Import Js Queue.

(** The fields of a request that no operation of the queue assigns. *)
Definition ticketInfo (q : Request) :=
  (user q, risuToken q, ip q, startTime q, body q, isStreaming q,
   service q, inboundApi q, outboundApi q, badSseParser q).

(** A view [P] of a request that the assignments of the queue (queue-out
    time, heartbeat timer, abort hook, response) do not change. *)
Definition untouched {T} (P : Request -> T) : Prop :=
  (forall v q, P (set_queueOutTime v q) = P q)
  /\ (forall v q, P (set_heartbeatInterval v q) = P q)
  /\ (forall v q, P (set_onAborted v q) = P q)
  /\ (forall v q, P (set_res v q) = P q).

(** [st'] holds requests with the view [P] of the requests of [st]. *)
Definition keeps {T} (P : Request -> T) (st st' : State) : Prop :=
  forall x, P (heap st' x) = P (heap st x).

(** The queued tickets that do not come from a shared address and have the
    identity [i]. *)
Definition regularWith (S : gset string) (st : State) (i : string) : list ref :=
  List.filter
    (fun q => negb (isFromSharedIp S (heap st q))
              && String.eqb (getIdentifier S (heap st q)) i)
    (queue st).

(** What [killQueuedRequest] does to the request it is given, in a queue of
    length [n]. *)
Definition answerStalled (n : nat) (q : Request) : Request :=
  if writableEnded (res q) then q
  else
    let message_ :=
      "Your request has been terminated by the proxy because it has been in the queue for more than 5 minutes. The queue is currently "
        ++ string_of_nat n ++ " requests long." in
    if headersSent (res q) then
      set_res (end_ (write (FakeSse "proxy queue error" message_) (res q))) q
    else
      set_res (status_json 500 (JObj [("error", JStr message_)]) (res q)) q.


End Frames.

(** ** More sample requests *)

Module Samples.
Import Js Queue Palm Models LogPrompt.

(** A ticket without a user token and without a Risu token that comes from
    a shared address. *)
Definition sharedGuest (S : gset string) (q : Request) : bool :=
  match user q with
  | Some _ => false
  | None =>
      negb (match risuToken q with
            | Some t => truthy (JStr t)
            | None => false
            end)
      && isFromSharedIp S q
  end.

(** Six new requests from the shared address. *)
Definition sixShared : State :=
  fold_left (createQueueMiddleware Scenario.sharedAddresses Scenario.stackText)
            [0; 1; 2; 3; 4]%nat
            (Scenario.emptyQueue
               [Scenario.ticket "203.0.113.9" 1000;
                Scenario.ticket "203.0.113.9" 2000;
                Scenario.ticket "203.0.113.9" 3000;
                Scenario.ticket "203.0.113.9" 4000;
                Scenario.ticket "203.0.113.9" 5000;
                Scenario.ticket "203.0.113.9" 6000]).

(** Whether the text contains a caret. *)
Definition hasCaret (s : string) : bool :=
  existsb (Ascii.eqb "^") (list_ascii_of_string s).

(** The state that a call leaves, when the call returns. *)
Definition returned {A} (r : result A) (otherwise : A) : A :=
  match r with
  | Ok a => a
  | Throw _ => otherwise
  end.

(** A streaming request of a regular address, not queued yet, and the state
    after it was enqueued. *)
Definition streamingAlone : State :=
  Scenario.emptyQueue
    [{| user := None; risuToken := None; ip := "198.51.100.4";
        retryCount := Some 0; startTime := 1000; queueOutTime := None;
        body := {| model := Some "gpt-4"; stream := JBool true |};
        isStreaming := false; service := "openai";
        inboundApi := openai; outboundApi := openai;
        badSseParser := JUndefined; promptTokens := None;
        outputTokens := None; debug := JUndefined;
        host := Some "proxy.example";
        heartbeatInterval := None; onAborted := false;
        res := Scenario.freshResponse |}].

Definition streamingQueued : State :=
  returned (enqueue Scenario.sharedAddresses streamingAlone 0) streamingAlone.

(** The PaLM ticket with tokenizer debug information, the response that the
    handler sends for it, and the object that the transform builds. *)
Definition debugTicket : Request :=
  {| user := None; risuToken := None; ip := "198.51.100.4";
     retryCount := Some 0; startTime := 1000; queueOutTime := Some 1050;
     body := {| model := Some "text-bison-001"; stream := JBool false |};
     isStreaming := false; service := "google-palm";
     inboundApi := openai; outboundApi := google_palm;
     badSseParser := JUndefined; promptTokens := Some 3; outputTokens := Some 1;
     debug := JObj [("tokenizer", JStr "estimate")];
     host := Some "proxy.example";
     heartbeatInterval := None; onAborted := false;
     res := Scenario.freshResponse |}.

Definition debugResponse : Response :=
  returned (palmResponseHandler true Scenario.uuid 2000 debugTicket Scenario.pong)
           Scenario.freshResponse.

Definition transformedPong : value :=
  returned (transformPalmResponse Scenario.uuid 2000 Scenario.pong
                                  Scenario.palmTicket)
           JUndefined.

(** Two calls for the model list, forty seconds apart; the key is gone at
    the second call. *)
Definition firstCall : Call :=
  {| key := Some "palm-key"; checked := 1700000000000;
     created := 1700000000001; stored := 1700000000002 |}.

Definition secondCall : Call :=
  {| key := None; checked := 1700000040000;
     created := 1700000040001; stored := 1700000040002 |}.

(** A trim that removes leading and trailing spaces. *)
Fixpoint dropSpaces (s : string) : string :=
  match s with
  | String " " rest => dropSpaces rest
  | other => other
  end.

Definition trimSpaces (s : string) : string :=
  String.rev (dropSpaces (String.rev (dropSpaces s))).

(** The PaLM request as the logger sees it, and the entry it records for the
    transformed response. *)
Definition loggedPalm : Logged :=
  {| request := Scenario.palmTicket;
     originalUrl := "/proxy/google-palm/v1/chat/completions";
     api := "google-palm";
     messages := [{| role := "user"; content := "ping" |}] |}.

Definition pongEntry : LogEntry :=
  {| entryModel := "text-bison-001";
     endpoint := "google-palm";
     promptRaw := [{| role := "user"; content := "ping" |}];
     promptFlattened := "user: ping";
     response := JStr "pong" |}.

End Samples.

(** ** Properties of the queue *)

Module QueueFacts.
Import Js Queue Statements.

(** *** The array and string operations on small inputs *)

Example splice_middle : splice [10; 20; 30] 1 1 = ([20], [10; 30]).
Proof. reflexivity. Qed.

Example splice_nothing : splice [10; 20; 30] 0 0 = ([], [10; 20; 30]).
Proof. reflexivity. Qed.

Example splice_from_end : splice [10; 20; 30] (-1) 1 = ([30], [10; 20]).
Proof. reflexivity. Qed.

Example indexOf_absent : indexOf 7 [4; 5; 6]%nat = -1.
Proof. reflexivity. Qed.

Example indexOf_first : indexOf 5 [4; 5; 6; 5]%nat = 1.
Proof. reflexivity. Qed.

Example findIndex_first : findIndex (fun x => 5 <? x) [4; 6; 3; 8] = 1.
Proof. reflexivity. Qed.

(** The sort keeps the order of the elements that the comparator does not
    tell apart: here the even numbers go last. *)
Example sort_is_stable :
  sort (fun a b =>
          if Z.odd a && Z.even b then -1
          else if Z.even a && Z.odd b then 1 else 0)
       [4; 1; 2; 3; 6; 5]
  = [1; 3; 5; 4; 2; 6].
Proof. reflexivity. Qed.

Example replace_first_occurrence :
  Js.replace "/v1/chat/completions" "/v1/chat/completions"
             "/v1beta2/models/text-bison-001:generateText"
  = "/v1beta2/models/text-bison-001:generateText".
Proof. reflexivity. Qed.

Example replace_caret_is_text :
  Js.replace "/palm^/v1/chat/completions" "^/v1/chat/completions" "/x$&"
  = "/palm/x^/v1/chat/completions".
Proof. reflexivity. Qed.

(** *** What the operations keep *)

Lemma ModelFamily_eqb_eq a b : ModelFamily_eqb a b = true <-> a = b.
Proof. destruct a, b; simpl; split; congruence. Qed.

Lemma ip_update h r f x :
  (forall q, ip (f q) = ip q) -> ip (update h r f x) = ip (h x).
Proof.
  intros Hf. unfold update. destruct (Nat.eqb_spec x r) as [->|]; auto.
Qed.

Lemma update_other h r f x :
  x <> r -> update h r f x = h x.
Proof.
  intros Hx. unfold update. destruct (Nat.eqb_spec x r); congruence.
Qed.

Lemma update_same h r f : update h r f r = f (h r).
Proof. unfold update. now rewrite Nat.eqb_refl. Qed.

Lemma sameQueue_refl st : sameQueue st st.
Proof. split; auto. Qed.

Lemma sameQueue_trans a b c : sameQueue a b -> sameQueue b c -> sameQueue a c.
Proof.
  intros [Hq1 Hi1] [Hq2 Hi2]. split; [congruence|].
  intros x. now rewrite Hi2, Hi1.
Qed.

Lemma sameQueue_mutate st r f :
  (forall q, ip (f q) = ip q) -> sameQueue st (mutate r f st).
Proof.
  intros Hf. split; [reflexivity|]. intros x. simpl. now apply ip_update.
Qed.

Lemma sameQueue_initStreaming st r : sameQueue st (initStreaming st r).
Proof.
  unfold initStreaming.
  destruct (truthy _).
  - now apply sameQueue_mutate.
  - eapply sameQueue_trans; now apply sameQueue_mutate.
Qed.

Lemma sameQueue_killQueuedRequest st r : sameQueue st (killQueuedRequest st r).
Proof.
  unfold killQueuedRequest.
  destruct (writableEnded _); [apply sameQueue_refl|].
  destruct (headersSent _); now apply sameQueue_mutate.
Qed.

Lemma sameQueue_kill_all l st : sameQueue st (fold_left killQueuedRequest l st).
Proof.
  revert st. induction l as [|r l IH]; intros st; simpl.
  - apply sameQueue_refl.
  - eapply sameQueue_trans; [apply sameQueue_killQueuedRequest | apply IH].
Qed.

Lemma sameQueue_cleanQueue now st : sameQueue st (cleanQueue now st).
Proof.
  unfold cleanQueue.
  destruct (sameQueue_kill_all
              (List.filter (fun req => 5 * 60 * 1000 <? now - startTime (heap st req))
                           (queue st)) st) as [Hq Hi].
  split; simpl; auto.
Qed.

(** *** Removing one element *)

Lemma occurrences_app r a b :
  occurrences r (a ++ b) = (occurrences r a + occurrences r b)%nat.
Proof. apply count_occ_app. Qed.

Lemma occurrences_skipn r n (a : list ref) :
  (occurrences r (skipn n a) <= occurrences r a)%nat.
Proof.
  unfold occurrences.
  revert a. induction n as [|n IH]; intros a; [rewrite skipn_O; lia|].
  destruct a as [|y a]; [rewrite skipn_nil; lia|].
  rewrite skipn_cons. specialize (IH a). simpl.
  destruct (Nat.eq_dec y r); lia.
Qed.

Lemma occurrences_splice r (a : list ref) i n :
  (occurrences r (snd (splice a i n)) <= occurrences r a)%nat.
Proof.
  unfold splice. simpl.
  set (k := Z.to_nat _). set (m := Z.to_nat _).
  rewrite occurrences_app.
  rewrite <- (firstn_skipn k a) at 3. rewrite occurrences_app.
  replace (skipn (k + m) a) with (skipn m (skipn k a))
    by (rewrite skipn_skipn; f_equal; lia).
  pose proof (occurrences_skipn r m (skipn k a)). lia.
Qed.

(** *** Admission *)

Section Admission.

Variable SHARED_IP_ADDRESSES : gset string.
Variable stack : exn -> string.

Local Abbreviation isFromSharedIp := (Queue.isFromSharedIp SHARED_IP_ADDRESSES).
Local Abbreviation admission := (Queue.admission SHARED_IP_ADDRESSES).
Local Abbreviation enqueue := (Queue.enqueue SHARED_IP_ADDRESSES).
Local Abbreviation createQueueMiddleware :=
  (Queue.createQueueMiddleware SHARED_IP_ADDRESSES stack).
Local Abbreviation identityCap := (Statements.identityCap SHARED_IP_ADDRESSES).
Local Abbreviation queuedWithIdentity :=
  (Statements.queuedWithIdentity SHARED_IP_ADDRESSES).
Local Abbreviation overCap := (Statements.overCap SHARED_IP_ADDRESSES).

Lemma admission_throws st req e :
  admission st req = Throw e ->
  overCap st req
  /\ (e = Error "Too many agnai.chat requests are already queued"
      \/ e = Error "Your IP or token already has a request in the queue").
Proof.
  unfold Queue.admission, Statements.overCap, Statements.identityCap,
    Statements.queuedWithIdentity, sharesIdentifierWith.
  destruct (user req); cbn [andb];
    destruct (isFromSharedIp req) eqn:Hs; cbn [andb];
    destruct (Nat.leb _ _) eqn:Hle; try discriminate;
    apply Nat.leb_le in Hle;
    unfold AGNAI_CONCURRENCY_LIMIT, USER_CONCURRENCY_LIMIT in Hle;
    try (destruct (retryCount req) as [[| |]|]; try discriminate);
    intros [= <-]; auto.
Qed.

Lemma admission_passes st req :
  admission st req = Ok tt -> ~ overCap st req.
Proof.
  unfold Queue.admission, Statements.overCap, Statements.identityCap,
    Statements.queuedWithIdentity, sharesIdentifierWith.
  destruct (user req); cbn [andb];
    destruct (isFromSharedIp req) eqn:Hs; cbn [andb];
    destruct (Nat.leb _ _) eqn:Hle; try discriminate;
    try (apply Nat.leb_gt in Hle;
         unfold AGNAI_CONCURRENCY_LIMIT, USER_CONCURRENCY_LIMIT in Hle;
         intros _ [? _]; lia);
    destruct (retryCount req) as [[| |]|]; try discriminate;
    intros _ [_ [?|?]]; discriminate.
Qed.

Lemma enqueue_throws st r e :
  enqueue st r = Throw e -> admission st (heap st r) = Throw e.
Proof.
  unfold Queue.enqueue. destruct (admission st (heap st r)); simpl; congruence.
Qed.

Lemma enqueue_returns st r st' :
  enqueue st r = Ok st' ->
  admission st (heap st r) = Ok tt
  /\ queue st' = (queue st ++ [r])%list
  /\ forall x, ip (heap st' x) = ip (heap st x).
Proof.
  unfold Queue.enqueue.
  destruct (admission st (heap st r)) as [[]|]; simpl; [|discriminate].
  intros [= <-]. split; [reflexivity|].
  set (st0 := with_queue (queue st ++ [r])%list st).
  set (st1 := mutate r (set_queueOutTime (Some 0)) st0).
  assert (H1 : sameQueue st0 st1) by now apply sameQueue_mutate.
  match goal with
  | |- context [mutate r (set_onAborted true) ?s] => set (st2 := s)
  end.
  assert (H2 : sameQueue st1 st2).
  { subst st2. destruct (optedIntoStreaming _); [|apply sameQueue_refl].
    destruct (negb _).
    - eapply sameQueue_trans;
        [apply sameQueue_initStreaming | now apply sameQueue_mutate].
    - now apply sameQueue_mutate. }
  assert (H3 : sameQueue st2 (mutate r (set_onAborted true) st2))
    by now apply sameQueue_mutate.
  destruct (sameQueue_trans _ _ _ (sameQueue_trans _ _ _ H1 H2) H3) as [Hq Hi].
  split; [exact Hq | exact Hi].
Qed.

(** C2, as amended.  [enqueue] turns a ticket away exactly when the number of
    queued tickets with its identity has reached the cap of the ticket (five
    for a ticket without a user token from a shared address, one otherwise)
    and the ticket either does not come from a shared address or has retry
    count [0]; the middleware then answers 429 with type [proxy_error] and
    the message of the error, and the queue is as before.  In every other
    case the ticket is appended.  Only a retry from a shared address is
    exempt from the cap. *)
Theorem enqueue_rejects_iff_over_cap (st : State) (r : ref) :
  match enqueue st r with
  | Throw err =>
      overCap st (heap st r)
      /\ queue (createQueueMiddleware st r) = queue st
      /\ exists fields,
           sent (res (heap (createQueueMiddleware st r) r))
             = Some (429, JObj fields)
           /\ assoc "type" fields = JStr "proxy_error"
           /\ assoc "message" fields = JStr (message err)
  | Ok st' =>
      ~ overCap st (heap st r)
      /\ queue st' = (queue st ++ [r])%list
      /\ createQueueMiddleware st r = st'
  end.
Proof.
  destruct (enqueue st r) as [st'|err] eqn:He.
  - destruct (enqueue_returns _ _ _ He) as (Ha & Hq & _).
    split; [now apply admission_passes|]. split; [exact Hq|].
    unfold Queue.createQueueMiddleware. now rewrite He.
  - destruct (admission_throws _ _ _ (enqueue_throws _ _ _ He)) as [Ho _].
    split; [exact Ho|].
    unfold Queue.createQueueMiddleware. rewrite He. split; [reflexivity|].
    eexists. simpl. rewrite update_same. simpl.
    split; [reflexivity|]. split; reflexivity.
Qed.

End Admission.

(** C2, the claim on a concrete input.  A retry (retry count [1]) from a
    regular address, while another request of that address is queued, is
    turned away: the retry is not exempt from the cap. *)
Lemma retry_of_regular_address_is_rejected :
  retryCount (heap Scenario.retryWhileQueued 1) = Some 1
  /\ isFromSharedIp Scenario.sharedAddresses (heap Scenario.retryWhileQueued 1) = false
  /\ queue Scenario.retryWhileQueued = [0%nat]
  /\ enqueue Scenario.sharedAddresses Scenario.retryWhileQueued 1
     = Throw (Error "Your IP or token already has a request in the queue").
Proof. repeat split; vm_compute; reflexivity. Qed.

(** C3, the claim on a concrete input.  A new request from the shared
    address is enqueued twice: both calls return, and the request is in the
    queue twice. *)
Lemma shared_ticket_is_queued_twice :
  match enqueue Scenario.sharedAddresses Scenario.sharedAlone 0 with
  | Ok st1 =>
      match enqueue Scenario.sharedAddresses st1 0 with
      | Ok st2 => queue st2 = [0; 0]%nat /\ occurrences 0 (queue st2) = 2%nat
      | Throw _ => False
      end
  | Throw _ => False
  end.
Proof. vm_compute. split; reflexivity. Qed.

(** *** A ticket is queued once, unless it comes from a shared address *)

Section Occurrences.

Variable SHARED_IP_ADDRESSES : gset string.
Variable getClaudeModelFamily : string -> ModelFamily.
Variable getOpenAIModelFamily : string -> ModelFamily.
Variable getGooglePalmModelFamily : string -> ModelFamily.
Variable NODE_ENV : option string.
Variable stack : exn -> string.

Local Abbreviation isFromSharedIp := (Queue.isFromSharedIp SHARED_IP_ADDRESSES).
Local Abbreviation enqueue := (Queue.enqueue SHARED_IP_ADDRESSES).
Local Abbreviation dequeue :=
  (Queue.dequeue SHARED_IP_ADDRESSES getClaudeModelFamily getOpenAIModelFamily
                 getGooglePalmModelFamily).
Local Abbreviation step :=
  (Statements.step SHARED_IP_ADDRESSES getClaudeModelFamily getOpenAIModelFamily
                   getGooglePalmModelFamily NODE_ENV stack).
Local Abbreviation reachable :=
  (Statements.reachable SHARED_IP_ADDRESSES getClaudeModelFamily
                        getOpenAIModelFamily getGooglePalmModelFamily NODE_ENV stack).
Local Abbreviation queuedWithIdentity :=
  (Statements.queuedWithIdentity SHARED_IP_ADDRESSES).

Lemma sameQueue_shrunk st st' : sameQueue st st' -> shrunk st st'.
Proof. intros [Hq Hi]. split; [intros r; rewrite Hq; lia | exact Hi]. Qed.

Lemma shrunk_trans a b c : shrunk a b -> shrunk b c -> shrunk a c.
Proof.
  intros [Ho1 Hi1] [Ho2 Hi2]. split.
  - intros r. specialize (Ho1 r). specialize (Ho2 r). lia.
  - intros x. now rewrite Hi2, Hi1.
Qed.

Lemma shrunk_splice st i n :
  shrunk st (with_queue (snd (splice (queue st) i n)) st).
Proof. split; [intros r; apply occurrences_splice | reflexivity]. Qed.

Lemma shrunk_removeFromQueue st r : shrunk st (removeFromQueue st r).
Proof.
  unfold removeFromQueue.
  set (st1 := if negb _ then _ else st).
  assert (H1 : shrunk st st1).
  { subst st1. destruct (negb _);
      [apply shrunk_splice | apply sameQueue_shrunk, sameQueue_refl]. }
  destruct (heartbeatInterval _); [|exact H1].
  eapply shrunk_trans; [exact H1|].
  now apply sameQueue_shrunk, sameQueue_mutate.
Qed.

Lemma shrunk_dequeue now st p : shrunk st (snd (dequeue now st p)).
Proof.
  unfold Queue.dequeue.
  destruct (getQueueForPartition _ _ _ _ st p) as [|first rest];
    [apply sameQueue_shrunk, sameQueue_refl|].
  cbv zeta. cbn [snd].
  match goal with
  | |- shrunk st (mutate ?r _ ?s2) =>
      eapply (shrunk_trans st s2);
        [|now apply sameQueue_shrunk, sameQueue_mutate]
  end.
  match goal with
  | |- shrunk st (match _ with Some _ => _ | None => ?s1 end) =>
      assert (H1 : shrunk st s1)
  end.
  { match goal with
    | |- shrunk st (if _ then _ else ?s0) => assert (H0 : shrunk st s0)
    end.
    { apply shrunk_splice. }
    destruct (onAborted _); [|exact H0].
    eapply shrunk_trans; [exact H0|].
    now apply sameQueue_shrunk, sameQueue_mutate. }
  destruct (heartbeatInterval _); [|exact H1].
  eapply shrunk_trans; [exact H1|].
  now apply sameQueue_shrunk, sameQueue_mutate.
Qed.

Lemma sameQueue_heartbeat now st r :
  sameQueue st (heartbeat getClaudeModelFamily getOpenAIModelFamily
                          getGooglePalmModelFamily NODE_ENV now st r).
Proof.
  unfold heartbeat.
  destruct (bool_decide _).
  - destruct (negb _); [now apply sameQueue_mutate | apply sameQueue_refl].
  - now apply sameQueue_mutate.
Qed.

(** The occurrences of a ticket are among the queued tickets with its
    identity. *)
Lemma occurrences_le_queuedWithIdentity st T :
  (occurrences T (queue st) <= queuedWithIdentity st (heap st T))%nat.
Proof.
  unfold occurrences, Statements.queuedWithIdentity.
  induction (queue st) as [|y q IH]; simpl; [lia|].
  destruct (Nat.eq_dec y T) as [->|Hne].
  - rewrite String.eqb_refl. simpl. lia.
  - destruct (String.eqb _ _); simpl; lia.
Qed.

(** A ticket of a regular address that passes the admission test is not in
    the queue. *)
Lemma admission_regular_not_queued st T :
  isFromSharedIp (heap st T) = false ->
  Queue.admission SHARED_IP_ADDRESSES st (heap st T) = Ok tt ->
  occurrences T (queue st) = 0%nat.
Proof.
  intros Hs Ha. apply admission_passes in Ha.
  pose proof (occurrences_le_queuedWithIdentity st T) as Hle.
  destruct (Nat.eq_dec (occurrences T (queue st)) 0%nat) as [|Hpos]; [assumption|].
  exfalso. apply Ha. split; [|now left].
  unfold Statements.identityCap. rewrite Hs. destruct (user _); lia.
Qed.

Lemma enqueue_keeps_once st r st' T :
  enqueue st r = Ok st' ->
  isFromSharedIp (heap st T) = false ->
  (occurrences T (queue st) <= 1)%nat ->
  (occurrences T (queue st') <= 1)%nat.
Proof.
  intros He Hs Hocc.
  destruct (enqueue_returns _ _ _ _ He) as (Ha & Hq & _).
  rewrite Hq, occurrences_app. unfold occurrences at 2. simpl.
  destruct (Nat.eq_dec r T) as [->|Hne]; [|lia].
  rewrite (admission_regular_not_queued st T Hs Ha). lia.
Qed.

Lemma enqueue_keeps_ip st r st' :
  enqueue st r = Ok st' -> forall x, ip (heap st' x) = ip (heap st x).
Proof. intros He. now destruct (enqueue_returns _ _ _ _ He) as (_ & _ & Hi). Qed.

Lemma step_keeps_ip st st' :
  step st st' -> forall x, ip (heap st' x) = ip (heap st x).
Proof.
  intros Hstep. destruct Hstep as
    [st r st' He | st r | now st p | st r | now st | now st r | now st r | st r].
  - now apply (enqueue_keeps_ip st r).
  - unfold Queue.createQueueMiddleware.
    destruct (enqueue st r) as [st'|err] eqn:He.
    + now apply (enqueue_keeps_ip st r).
    + now apply sameQueue_mutate.
  - apply shrunk_dequeue.
  - apply shrunk_removeFromQueue.
  - apply sameQueue_cleanQueue.
  - apply sameQueue_heartbeat.
  - reflexivity.
  - now apply sameQueue_mutate.
Qed.

Lemma step_keeps_once st st' T :
  step st st' ->
  isFromSharedIp (heap st T) = false ->
  (occurrences T (queue st) <= 1)%nat ->
  (occurrences T (queue st') <= 1)%nat.
Proof.
  intros Hstep Hs Hocc. destruct Hstep as
    [st r st' He | st r | now st p | st r | now st | now st r | now st r | st r].
  - now apply (enqueue_keeps_once st r).
  - unfold Queue.createQueueMiddleware.
    destruct (enqueue st r) as [st'|err] eqn:He.
    + now apply (enqueue_keeps_once st r).
    + exact Hocc.
  - destruct (shrunk_dequeue now st p) as [Ho _]. specialize (Ho T). lia.
  - destruct (shrunk_removeFromQueue st r) as [Ho _]. specialize (Ho T). lia.
  - destruct (sameQueue_cleanQueue now st) as [Hq _]. now rewrite Hq.
  - destruct (sameQueue_heartbeat now st r) as [Hq _]. now rewrite Hq.
  - exact Hocc.
  - exact Hocc.
Qed.

Lemma reachable_once st :
  reachable st ->
  forall T, isFromSharedIp (heap st T) = false ->
            (occurrences T (queue st) <= 1)%nat.
Proof.
  induction 1 as [h | st st' Hreach IH Hstep]; intros T Hs.
  - simpl. unfold occurrences. simpl. lia.
  - apply (step_keeps_once st st' T Hstep).
    + unfold Queue.isFromSharedIp in *.
      now rewrite <- (step_keeps_ip st st' Hstep T).
    + apply IH. unfold Queue.isFromSharedIp in *.
      now rewrite <- (step_keeps_ip st st' Hstep T).
Qed.

(** C3, as amended.  In every state that the operations reach from an empty
    queue, a ticket that does not come from a shared address is in the queue
    at most once; and [enqueue] on such a ticket that is in the queue raises,
    so that the queue is left as it is. *)
Theorem regular_ticket_queued_at_most_once (st : State) (T : ref) :
  reachable st ->
  isFromSharedIp (heap st T) = false ->
  (occurrences T (queue st) <= 1)%nat
  /\ (In T (queue st) ->
      enqueue st T
      = Throw (Error "Your IP or token already has a request in the queue")).
Proof.
  intros Hreach Hs. split; [now apply reachable_once|].
  intros Hin.
  assert (Hpos : (1 <= queuedWithIdentity st (heap st T))%nat).
  { pose proof (occurrences_le_queuedWithIdentity st T) as Hle.
    apply (count_occ_In Nat.eq_dec) in Hin. unfold occurrences in Hle. lia. }
  unfold Queue.enqueue, Queue.admission.
  rewrite Hs, andb_false_r.
  unfold Statements.queuedWithIdentity, USER_CONCURRENCY_LIMIT in *.
  unfold sharesIdentifierWith.
  destruct (Nat.leb_spec 1
              (length (List.filter
                 (fun q => String.eqb (getIdentifier SHARED_IP_ADDRESSES (heap st q))
                                      (getIdentifier SHARED_IP_ADDRESSES (heap st T)))
                 (queue st)))) as [_|Hlt]; [reflexivity | lia].
Qed.

End Occurrences.

(** The state in which one request of a regular address is queued is
    reachable, the request is in its queue once, and a second [enqueue] of
    it raises. *)
Lemma regular_ticket_queued_at_most_once_witness :
  (occurrences 0 (queue Scenario.regularQueued) <= 1)%nat
  /\ (In 0%nat (queue Scenario.regularQueued) ->
      enqueue Scenario.sharedAddresses Scenario.regularQueued 0
      = Throw (Error "Your IP or token already has a request in the queue")).
Proof.
  apply (regular_ticket_queued_at_most_once
           Scenario.sharedAddresses Scenario.claudeFamily Scenario.openAIFamily
           Scenario.palmFamily None Scenario.stackText).
  - eapply reachable_step; [apply reachable_start|].
    apply (step_middleware _ _ _ _ _ _
             (Scenario.emptyQueue [Scenario.ticket "198.51.100.4" 1000]) 0%nat).
  - vm_compute. reflexivity.
Defined.

(** *** Which ticket [dequeue] returns *)

Lemma In_insert {A} (cmp : A -> A -> Z) (x y : A) (l : list A) :
  In x (insert cmp y l) <-> x = y \/ In x l.
Proof.
  induction l as [|z l IH]; simpl.
  - intuition.
  - destruct (0 <? cmp y z); simpl; [rewrite IH|]; intuition.
Qed.

Lemma In_sort {A} (cmp : A -> A -> Z) (x : A) (l : list A) :
  In x (sort cmp l) <-> In x l.
Proof.
  unfold sort. induction l as [|y l IH]; simpl; [tauto|].
  rewrite In_insert, IH. intuition.
Qed.

(** The [reduce] of [dequeue] returns an element with the least key. *)
Lemma reduce_least {A} (key : A -> Z) (first : A) (rest : list A) :
  let least :=
    reduce (fun prev curr => if key prev <? key curr then prev else curr)
           first rest in
  In least (first :: rest)
  /\ forall x, In x (first :: rest) -> key least <= key x.
Proof.
  unfold reduce. revert first.
  induction rest as [|y rest IH]; intros first; simpl.
  - split; [now left|]. intros x [<-|[]]. lia.
  - destruct (IH (if key first <? key y then first else y)) as [Hin Hle].
    split.
    + destruct Hin as [Heq|Hin]; [|now right; right].
      rewrite <- Heq. destruct (key first <? key y); [now left | right; now left].
    + intros x Hx.
      assert (Hstep : key (if key first <? key y then first else y) <= key first
                      /\ key (if key first <? key y then first else y) <= key y).
      { destruct (Z.ltb_spec (key first) (key y)); lia. }
      pose proof (Hle _ (or_introl eq_refl)) as Hhead.
      destruct Hx as [<-|[<-|Hx]]; [lia | lia |].
      apply Hle. now right.
Qed.

Section Dequeue.

Variable SHARED_IP_ADDRESSES : gset string.
Variable getClaudeModelFamily : string -> ModelFamily.
Variable getOpenAIModelFamily : string -> ModelFamily.
Variable getGooglePalmModelFamily : string -> ModelFamily.

Local Abbreviation getPartitionForRequest :=
  (Queue.getPartitionForRequest getClaudeModelFamily getOpenAIModelFamily
                                getGooglePalmModelFamily).
Local Abbreviation getQueueForPartition :=
  (Queue.getQueueForPartition SHARED_IP_ADDRESSES getClaudeModelFamily
                              getOpenAIModelFamily getGooglePalmModelFamily).
Local Abbreviation dequeue :=
  (Queue.dequeue SHARED_IP_ADDRESSES getClaudeModelFamily getOpenAIModelFamily
                 getGooglePalmModelFamily).

Lemma In_getQueueForPartition st p x :
  In x (getQueueForPartition st p)
  <-> In x (queue st) /\ getPartitionForRequest (heap st x) = p.
Proof.
  unfold Queue.getQueueForPartition.
  rewrite In_sort, filter_In, ModelFamily_eqb_eq. reflexivity.
Qed.

(** The ticket that [dequeue] returns is a ticket of the partition whose
    start-time is the least of the partition, whichever address it comes
    from: the order that the sort gives is not used for the choice. *)
Lemma dequeue_returns_earliest now st p r :
  fst (dequeue now st p) = Some r ->
  In r (queue st)
  /\ getPartitionForRequest (heap st r) = p
  /\ forall x, In x (queue st) -> getPartitionForRequest (heap st x) = p ->
               startTime (heap st r) <= startTime (heap st x).
Proof.
  unfold Queue.dequeue.
  destruct (getQueueForPartition st p) as [|first rest] eqn:Hq;
    [discriminate|].
  cbv zeta. cbn [fst]. intros [= <-].
  destruct (reduce_least (fun x => startTime (heap st x)) first rest)
    as [Hin Hle].
  cbv zeta in Hin, Hle. rewrite <- Hq in Hin, Hle.
  apply In_getQueueForPartition in Hin. destruct Hin as [Hin Hp].
  split; [exact Hin|]. split; [exact Hp|].
  intros x Hx Hxp. apply Hle. apply In_getQueueForPartition. now split.
Qed.

End Dequeue.

(** C1 (the code departs from the claim).  In scenario 4 the partition
    [turbo] holds the request [1] of a regular address next to five requests
    of the shared address, and [dequeue] returns the request [0] of the
    shared address, whose start-time is the earliest: the deprioritized
    request is served while a non-deprioritized one waits. *)
Theorem dequeue_serves_shared_address_first :
  queue Scenario.scenario4 = [0; 1; 2; 3; 4; 5]%nat
  /\ isFromSharedIp Scenario.sharedAddresses (heap Scenario.scenario4 1) = false
  /\ getPartitionForRequest Scenario.claudeFamily Scenario.openAIFamily
       Scenario.palmFamily (heap Scenario.scenario4 1) = turbo
  /\ isFromSharedIp Scenario.sharedAddresses (heap Scenario.scenario4 0) = true
  /\ fst (dequeue Scenario.sharedAddresses Scenario.claudeFamily
            Scenario.openAIFamily Scenario.palmFamily 7000
            Scenario.scenario4 turbo) = Some 0%nat.
Proof. repeat split; vm_compute; reflexivity. Qed.

(** *** What a waiting client is sent *)

Section Streaming.

Variable SHARED_IP_ADDRESSES : gset string.
Variable getClaudeModelFamily : string -> ModelFamily.
Variable getOpenAIModelFamily : string -> ModelFamily.
Variable getGooglePalmModelFamily : string -> ModelFamily.
Variable NODE_ENV : option string.

Local Abbreviation enqueue := (Queue.enqueue SHARED_IP_ADDRESSES).
Local Abbreviation heartbeat :=
  (Queue.heartbeat getClaudeModelFamily getOpenAIModelFamily
                   getGooglePalmModelFamily NODE_ENV).

Ltac read_store :=
  repeat (rewrite ?update_same;
          cbn [heap queue res badSseParser set_res set_queueOutTime
               set_onAborted set_heartbeatInterval headersSent written
               initializeSseStream write]).

Lemma enqueue_writes_nothing st r st' :
  truthy (badSseParser (heap st r)) = true ->
  enqueue st r = Ok st' ->
  written (res (heap st' r)) = written (res (heap st r)).
Proof.
  intros Hb. unfold Queue.enqueue.
  destruct (Queue.admission _ st (heap st r)) as [[]|]; simpl; [|discriminate].
  intros [= <-].
  unfold initStreaming, mutate, with_heap, with_queue. read_store.
  rewrite Hb.
  destruct (optedIntoStreaming _); [destruct (negb _)|]; read_store; reflexivity.
Qed.

Lemma heartbeat_in_production st r now :
  truthy (badSseParser (heap st r)) = true ->
  NODE_ENV = Some "production" ->
  heartbeat now st r = st.
Proof.
  intros Hb Hp. unfold Queue.heartbeat.
  rewrite (bool_decide_eq_true_2 _ Hp), Hb. reflexivity.
Qed.

Lemma heartbeat_in_diagnostic_mode st r now :
  NODE_ENV <> Some "production" ->
  exists msg,
    written (res (heap (heartbeat now st r) r))
    = (written (res (heap st r)) ++ [FakeSse "heartbeat" msg])%list.
Proof.
  intros Hp. unfold Queue.heartbeat.
  rewrite (bool_decide_eq_false_2 _ Hp).
  eexists. unfold mutate, with_heap. read_store. reflexivity.
Qed.

Lemma writtenSince_same st st' r :
  written (res (heap st' r)) = written (res (heap st r)) ->
  writtenSince st st' r = [].
Proof. intros H. unfold writtenSince. rewrite H. apply skipn_all. Qed.

Lemma writtenSince_app st st' r extra :
  written (res (heap st' r)) = (written (res (heap st r)) ++ extra)%list ->
  writtenSince st st' r = extra.
Proof.
  intros H. unfold writtenSince. rewrite H.
  rewrite skipn_app, skipn_all, Nat.sub_diag. reflexivity.
Qed.

(** C9, as amended.  For a ticket whose request carries a truthy
    [badSseParser] query parameter, [enqueue] writes nothing to the client
    (no joining-queue comment), and the heartbeat of production mode writes
    nothing (no comment line).  The heartbeat of the other modes is not
    suppressed: it writes one fake event of type [heartbeat]. *)
Theorem badSseParser_suppresses_comment_lines (st : State) (r : ref) (now : Z) :
  truthy (badSseParser (heap st r)) = true ->
  (forall st', enqueue st r = Ok st' -> writtenSince st st' r = [])
  /\ (if bool_decide (NODE_ENV = Some "production")
      then writtenSince st (heartbeat now st r) r = []
      else exists msg,
          writtenSince st (heartbeat now st r) r = [FakeSse "heartbeat" msg]).
Proof.
  intros Hb. split.
  - intros st' He. apply writtenSince_same. now apply enqueue_writes_nothing.
  - destruct (bool_decide (NODE_ENV = Some "production")) eqn:Hp.
    + apply bool_decide_eq_true_1 in Hp.
      rewrite (heartbeat_in_production st r now Hb Hp).
      now apply writtenSince_same.
    + apply bool_decide_eq_false_1 in Hp.
      destruct (heartbeat_in_diagnostic_mode st r now Hp) as [msg Hw].
      exists msg. now apply writtenSince_app.
Qed.

End Streaming.

(** The theorem at the waiting request of the client with the bad parser,
    in production mode. *)
Lemma badSseParser_suppresses_comment_lines_witness :
  (forall st',
      enqueue Scenario.sharedAddresses Scenario.badParserWaiting 0 = Ok st' ->
      writtenSince Scenario.badParserWaiting st' 0 = [])
  /\ writtenSince Scenario.badParserWaiting
       (heartbeat Scenario.claudeFamily Scenario.openAIFamily Scenario.palmFamily
                  (Some "production") 11000 Scenario.badParserWaiting 0) 0 = [].
Proof.
  apply (badSseParser_suppresses_comment_lines
           Scenario.sharedAddresses Scenario.claudeFamily Scenario.openAIFamily
           Scenario.palmFamily (Some "production") Scenario.badParserWaiting
           0%nat 11000).
  vm_compute. reflexivity.
Defined.

(** C9, the claim on a concrete input.  Outside production mode the
    heartbeat of the waiting client with the bad parser writes a fake event,
    and nothing was written when the request joined the queue. *)
Lemma diagnostic_heartbeat_is_not_suppressed :
  truthy (badSseParser (heap Scenario.badParserWaiting 0)) = true
  /\ written (res (heap Scenario.badParserWaiting 0)) = []
  /\ written
       (res (heap (heartbeat Scenario.claudeFamily Scenario.openAIFamily
                             Scenario.palmFamily (Some "development") 11000
                             Scenario.badParserWaiting 0) 0))
     = [FakeSse "heartbeat" "queue length: 1; elapsed time: 10s; avg wait: 0s"]
  /\ isFakeEvent
       (FakeSse "heartbeat" "queue length: 1; elapsed time: 10s; avg wait: 0s")
     = true.
Proof. repeat split; vm_compute; reflexivity. Qed.

(** *** The estimate of the wait *)

Lemma fold_left_durations (l : list WaitTime) (acc : Z) :
  fold_left (fun sum wait => sum + end_time wait - start wait) l acc
  = acc + fold_right Z.add 0 (map (fun w => end_time w - start w) l).
Proof.
  revert acc. induction l as [|w l IH]; intros acc; simpl; [lia|].
  rewrite IH. lia.
Qed.

(** Quotients and the doubles the division gives for them: [1 / 3],
    [1 / 10], [3000 / 2], [-7 / 3], and the two odd integers above [2 ^ 53],
    which lie halfway between doubles and go to the even significand. *)
Example toDouble_of_quotients :
  toDouble (1 # 3) = (6004799503160661 # 18014398509481984)%Q
  /\ toDouble (1 # 10) = (3602879701896397 # 36028797018963968)%Q
  /\ toDouble (3000 # 2) = 1500%Q
  /\ toDouble (-7 # 3) = (-5254199565265579 # 2251799813685248)%Q
  /\ toDouble (9007199254740993 # 1) = 9007199254740992%Q
  /\ toDouble (9007199254740995 # 1) = 9007199254740996%Q.
Proof. repeat split; vm_compute; reflexivity. Qed.

(** The exponent that [binade] finds is not above the quotient. *)
Lemma binade_below (a d : Z) :
  0 < a -> 0 < d ->
  snd (scaled a d (binade a d)) <= fst (scaled a d (binade a d)).
Proof.
  intros Ha Hd. unfold binade.
  set (k := Z.log2 a - Z.log2 d).
  destruct (scaled a d k) as [x y] eqn:Hk.
  destruct (Z.leb_spec y x) as [Hle|Hgt]; [now rewrite Hk|].
  pose proof (Z.log2_spec a Ha) as [Hla _].
  pose proof (Z.log2_spec d Hd) as [_ Hld].
  pose proof (Z.log2_nonneg a) as Na.
  pose proof (Z.log2_nonneg d) as Nd.
  unfold scaled. destruct (Z.leb_spec 0 (k - 1)) as [Hpos|Hneg]; cbn [fst snd].
  - assert (Hp : 2 ^ Z.log2 a = 2 ^ Z.log2 d * 2 * 2 ^ (k - 1)).
    { replace (Z.log2 a) with (Z.log2 d + 1 + (k - 1)) at 1 by (subst k; lia).
      rewrite !Z.pow_add_r by lia. rewrite Z.pow_1_r. reflexivity. }
    rewrite Z.pow_succ_r in Hld by lia.
    assert (0 < 2 ^ (k - 1)) by (apply Z.pow_pos_nonneg; lia).
    nia.
  - assert (Hp : 2 ^ Z.log2 a * 2 ^ (- (k - 1)) = 2 ^ Z.log2 d * 2).
    { rewrite <- Z.pow_add_r by lia.
      replace (Z.log2 a + - (k - 1)) with (Z.log2 d + 1) by (subst k; lia).
      rewrite Z.pow_add_r by lia. rewrite Z.pow_1_r. reflexivity. }
    rewrite Z.pow_succ_r in Hld by lia.
    assert (0 < 2 ^ (- (k - 1))) by (apply Z.pow_pos_nonneg; lia).
    nia.
Qed.

(** Scaled by [52] binary places more, the quotient is at least [2 ^ 52]:
    the rounded significand has its 53 bits. *)
Lemma scaled_mantissa (a d b : Z) :
  0 < a -> 0 < d ->
  snd (scaled a d b) <= fst (scaled a d b) ->
  0 < snd (scaled a d (b - 52))
  /\ 2 ^ 52 * snd (scaled a d (b - 52)) <= fst (scaled a d (b - 52)).
Proof.
  intros Ha Hd. unfold scaled.
  destruct (Z.leb_spec 0 b) as [Hb|Hb];
    destruct (Z.leb_spec 0 (b - 52)) as [He|He]; cbn [fst snd]; intros Hle;
    try lia.
  - assert (Hp : 2 ^ b = 2 ^ 52 * 2 ^ (b - 52)).
    { rewrite <- Z.pow_add_r by lia. f_equal. lia. }
    assert (0 < 2 ^ (b - 52)) by (apply Z.pow_pos_nonneg; lia).
    split; [nia|]. rewrite Hp in Hle. nia.
  - assert (Hp : 2 ^ b * 2 ^ (- (b - 52)) = 2 ^ 52).
    { rewrite <- Z.pow_add_r by lia. f_equal. lia. }
    assert (0 < 2 ^ (- (b - 52))) by (apply Z.pow_pos_nonneg; lia).
    assert (0 < 2 ^ b) by (apply Z.pow_pos_nonneg; lia).
    split; [lia|]. nia.
  - assert (Hp : 2 ^ (- (b - 52)) = 2 ^ 52 * 2 ^ (- b)).
    { rewrite <- Z.pow_add_r by lia. f_equal. lia. }
    split; [lia|]. rewrite Hp. nia.
Qed.

(** Rounding to the nearest integer moves the quotient by at most a half. *)
Lemma nearestEven_close (num den : Z) :
  0 < den -> 2 * Z.abs (nearestEven num den * den - num) <= den.
Proof.
  intros Hden. unfold nearestEven.
  pose proof (Z.div_mod num den ltac:(lia)) as Hdm.
  pose proof (Z.mod_pos_bound num den Hden) as Hr.
  destruct (Z.ltb_spec (2 * (num mod den)) den);
    [|destruct (Z.ltb_spec den (2 * (num mod den)));
      [|destruct (Z.even (num / den))]]; nia.
Qed.

(** The double of a quotient differs from it by at most the share
    [2 ^ -53] of its size. *)
Lemma toDouble_accurate (q : Q) :
  (Qabs (toDouble q - q) <= Qabs q * (1 # 9007199254740992))%Q.
Proof.
  destruct q as [n dp]. unfold toDouble. cbn [Qnum Qden].
  destruct (Z.eqb_spec n 0) as [->|Hn].
  - unfold Qle. cbn. lia.
  - remember (Z.abs n) as a eqn:Ea. remember (Z.pos dp) as d eqn:Ed.
    assert (Ha : 0 < a) by lia.
    assert (Hd : 0 < d) by lia.
    assert (Hsgn : n = Z.sgn n * a) by lia.
    assert (Hs1 : Z.sgn n = 1 \/ Z.sgn n = -1) by lia.
    pose proof (scaled_mantissa a d (binade a d) Ha Hd (binade_below a d Ha Hd))
      as [Hden Hbig].
    remember (binade a d - 52) as e eqn:Ee. clear Ee.
    pose proof (nearestEven_close (fst (scaled a d e)) (snd (scaled a d e)) Hden)
      as Hclose.
    change (2 ^ 52) with 4503599627370496 in Hbig.
    destruct (scaled a d e) as [num den] eqn:Hs.
    change (0 < den) in Hden.
    change (4503599627370496 * den <= num) in Hbig.
    change (2 * Z.abs (nearestEven num den * den - num) <= den) in Hclose.
    remember (nearestEven num den) as m eqn:Em. clear Em.
    unfold scaled in Hs.
    destruct (Z.leb_spec 0 e) as [He|He]; injection Hs as <- <-.
    + unfold Qle, Qabs, Qminus, Qplus, Qopp, Qmult, inject_Z. cbn [Qnum Qden].
      rewrite Pos2Z.inj_mul, <- Ed, <- Ea.
      change (Z.pos 9007199254740992) with 9007199254740992.
      change (Z.pos 1) with 1.
      remember (2 ^ e) as P eqn:EP. clear EP.
      assert (Hdiff : Z.abs (Z.sgn n * m * P * d + - n * 1)
                      = Z.abs (m * (d * P) - a)).
      { destruct Hs1 as [E|E]; rewrite E in *; lia. }
      rewrite Hdiff.
      nia.
    + rewrite Qred_correct.
      assert (Hp : 0 < 2 ^ (- e)) by (apply Z.pow_pos_nonneg; lia).
      unfold Qle, Qabs, Qminus, Qplus, Qopp, Qmult. cbn [Qnum Qden].
      rewrite !Pos2Z.inj_mul. rewrite Z2Pos.id by exact Hp.
      rewrite <- Ed, <- Ea.
      change (Z.pos 9007199254740992) with 9007199254740992.
      remember (2 ^ (- e)) as P eqn:EP. clear EP.
      assert (Hdiff : Z.abs (Z.sgn n * m * d + - n * P)
                      = Z.abs (m * d - a * P)).
      { destruct Hs1 as [E|E]; rewrite E in *; lia. }
      rewrite Hdiff.
      nia.
Qed.

(** C7.  [getEstimatedWaitTime(partition)] is the arithmetic mean of
    [end - start] over the recorded samples of that partition that ended less
    than five minutes before the call and are not deprioritized, and [0] when
    there is no such sample.  The mean is the sum of the durations divided by
    their number in the arithmetic of the program: the estimate is the double
    nearest to the exact mean, so the two differ by at most the share
    [2 ^ -53] of the mean. *)
Theorem getEstimatedWaitTime_is_mean (now : Z) (st : State) (p : ModelFamily) :
  getEstimatedWaitTime now st p
  = toDouble (mean (map (fun w => end_time w - start w)
                        (samplesFor now p (waitTimes st))))
  /\ (let exact := mean (map (fun w => end_time w - start w)
                             (samplesFor now p (waitTimes st))) in
      let estimate := getEstimatedWaitTime now st p in
      (Qabs (estimate - exact) <= Qabs exact * (1 # 9007199254740992))%Q)
  /\ (forall w,
        In w (samplesFor now p (waitTimes st))
        <-> In w (waitTimes st)
            /\ partition w = p
            /\ now - end_time w < 5 * 60 * 1000
            /\ isDeprioritized w = false)
  /\ (samplesFor now p (waitTimes st) = [] -> getEstimatedWaitTime now st p = 0%Q).
Proof.
  assert (Hsel : List.filter
            (fun wait =>
               ModelFamily_eqb (partition wait) p
               && (now - end_time wait <? 300 * 1000)
               && negb (isDeprioritized wait))
            (waitTimes st)
          = samplesFor now p (waitTimes st)).
  { unfold samplesFor. apply filter_ext. intros w.
    change (5 * 60 * 1000) with (300 * 1000).
    destruct (ModelFamily_eqb _ _), (_ <? _), (isDeprioritized w); reflexivity. }
  assert (Hmean : getEstimatedWaitTime now st p
                  = toDouble (mean (map (fun w => end_time w - start w)
                                        (samplesFor now p (waitTimes st))))).
  { unfold getEstimatedWaitTime. cbv zeta. rewrite Hsel.
    destruct (samplesFor now p (waitTimes st)) as [|w l]; [reflexivity|].
    cbn [length Nat.eqb]. rewrite fold_left_durations, Z.add_0_l.
    unfold mean. rewrite length_map. reflexivity. }
  split; [exact Hmean|]. split; [|split].
  - cbv zeta. rewrite Hmean. apply toDouble_accurate.
  - intros w. unfold samplesFor. rewrite filter_In.
    rewrite !andb_true_iff, negb_true_iff, ModelFamily_eqb_eq, Z.ltb_lt.
    tauto.
  - intros Hnone. rewrite Hmean, Hnone. reflexivity.
Qed.

Example estimate_of_recent_samples :
  getEstimatedWaitTime 10000 Scenario.recentSamples turbo = 1500%Q
  /\ getEstimatedWaitTime 10000 Scenario.recentSamples claude = 0%Q
  /\ getEstimatedWaitTime 400000 Scenario.recentSamples turbo = 0%Q.
Proof. repeat split; vm_compute; reflexivity. Qed.

(** The mean [3001 / 3] of the durations [1000], [1000] and [1001] is no
    double; the estimate is the double next to it, which prints as
    [1000.3333333333334], a little above the mean. *)
Example estimate_rounds_the_quotient :
  getEstimatedWaitTime 10000 Scenario.unevenSamples turbo
  = (8799025053215403 # 8796093022208)%Q
  /\ Qeq (mean (map (fun w => end_time w - start w)
                   (samplesFor 10000 turbo (waitTimes Scenario.unevenSamples))))
         (3001 # 3)
  /\ ((3001 # 3) < getEstimatedWaitTime 10000 Scenario.unevenSamples turbo)%Q.
Proof.
  split; [vm_compute; reflexivity|]. split; [reflexivity|].
  vm_compute. reflexivity.
Qed.

(** *** The sweep of the wait samples *)

Lemma findIndex_bounds {A} (p : A -> bool) (l : list A) :
  -1 <= findIndex p l < Z.of_nat (length l).
Proof.
  induction l as [|x l IH]; simpl length; simpl findIndex; [lia|].
  destruct (p x); [lia|].
  destruct (Z.ltb_spec (findIndex p l) 0); lia.
Qed.

Lemma waitTimes_killQueuedRequest st r :
  waitTimes (killQueuedRequest st r) = waitTimes st.
Proof.
  unfold killQueuedRequest.
  destruct (writableEnded _); [reflexivity|].
  destruct (headersSent _); reflexivity.
Qed.

Lemma waitTimes_kill_all l st :
  waitTimes (fold_left killQueuedRequest l st) = waitTimes st.
Proof.
  revert st. induction l as [|r l IH]; intros st; simpl; [reflexivity|].
  now rewrite IH, waitTimes_killQueuedRequest.
Qed.

(** One run of [cleanQueue] drops the samples up to and including the first
    one that ended more than five minutes ago, and nothing when there is
    none; samples after the first stale one stay, stale or not. *)
Lemma cleanQueue_prunes_through_first_stale now st :
  waitTimes (cleanQueue now st)
  = skipn
      (Z.to_nat
         (findIndex (fun waitTime => 300 * 1000 <? now - end_time waitTime)
                    (waitTimes st) + 1))
      (waitTimes st).
Proof.
  unfold cleanQueue. cbv zeta. cbn [waitTimes with_waitTimes].
  rewrite waitTimes_kill_all.
  pose proof (findIndex_bounds
                (fun waitTime => 300 * 1000 <? now - end_time waitTime)
                (waitTimes st)) as Hb.
  unfold splice. cbn [snd]. cbn [Z.ltb Z.compare].
  rewrite Z.min_l by lia. rewrite Z.sub_0_r.
  rewrite Z.max_l by lia. rewrite Z.min_l by lia.
  reflexivity.
Qed.

(** C8 (the code departs from the claim).  With two samples that both ended
    more than five minutes before the sweep, [cleanQueue] removes the first
    one only: the second is still in [waitTimes] after the run. *)
Theorem cleanQueue_leaves_stale_sample :
  waitTimes (cleanQueue 400000 Scenario.staleSamples) = [Scenario.sample 1000]
  /\ 300 * 1000 < 400000 - end_time (Scenario.sample 1000).
Proof. split; vm_compute; reflexivity. Qed.

End QueueFacts.

(** ** Properties of the PaLM route *)

Module PalmFacts.
Import Js Queue Palm.

Lemma assoc_set_other k k' v fields :
  String.eqb k k' = false -> assoc k (assoc_set k' v fields) = assoc k fields.
Proof.
  intros Hk. induction fields as [|[k0 v0] fields IH]; simpl.
  - now rewrite Hk.
  - destruct (String.eqb k' k0) eqn:Hk0; simpl.
    + apply String.eqb_eq in Hk0. subst k0. now rewrite Hk.
    + now rewrite IH.
Qed.

(** *** The rewriter *)

(** C5 (the code departs from the claim).  The pattern of the [replace] is
    the text [^/v1/chat/completions], which does not occur in the canonical
    client path: for every request the path is left as it is, and in
    scenario 5 the outgoing request keeps the path [/v1/chat/completions]
    instead of getting [/v1beta2/models/text-bison-001:generateText]. *)
Theorem rewritePalmRequest_keeps_client_path :
  (forall req, rewrittenPath "/v1/chat/completions" req = "/v1/chat/completions")
  /\ rewritePalmRequest Scenario.passThrough Scenario.passThrough
       Scenario.passThrough Scenario.passThrough Scenario.passThrough
       Scenario.passThrough Scenario.outgoing Scenario.palmTicket
     = ((Scenario.outgoing, Scenario.palmTicket), None)
  /\ path Scenario.outgoing <> "/v1beta2/models/text-bison-001:generateText".
Proof.
  split; [intros req; reflexivity|].
  split; [vm_compute; reflexivity | discriminate].
Qed.

Section Rewriter.

Variable applyQuotaLimits addKey languageFilter : Rewriter.
Variable blockZoomerOrigins removeOriginHeaders finalizeBody : Rewriter.

Local Abbreviation rewritePalmRequest :=
  (Palm.rewritePalmRequest applyQuotaLimits addKey languageFilter
                           blockZoomerOrigins removeOriginHeaders finalizeBody).

(** C10, as amended.  For a request whose parsed body has a truthy [stream]
    field the rewriter throws the error "Google PaLM API doesn't support
    streaming requests" to its caller, before it rewrites the path and before
    any stage runs, and it leaves the outgoing request as it was: the
    rewriter does not destroy it. *)
Theorem streaming_request_raises_without_destroy
    (proxyReq : ClientRequest) (req : Request) :
  truthy (stream (body req)) = true ->
  rewritePalmRequest proxyReq req
  = ((proxyReq, req),
     Some (Error "Google PaLM API doesn't support streaming requests")).
Proof. intros Hs. unfold Palm.rewritePalmRequest. now rewrite Hs. Qed.

End Rewriter.

(** The theorem at the streaming PaLM request, with stages that change
    nothing. *)
Lemma streaming_request_raises_without_destroy_witness :
  Palm.rewritePalmRequest Scenario.passThrough Scenario.passThrough
    Scenario.passThrough Scenario.passThrough Scenario.passThrough
    Scenario.passThrough Scenario.outgoing Scenario.palmStreaming
  = ((Scenario.outgoing, Scenario.palmStreaming),
     Some (Error "Google PaLM API doesn't support streaming requests")).
Proof.
  apply (streaming_request_raises_without_destroy
           Scenario.passThrough Scenario.passThrough Scenario.passThrough
           Scenario.passThrough Scenario.passThrough Scenario.passThrough
           Scenario.outgoing Scenario.palmStreaming).
  reflexivity.
Defined.

(** C10, the claim on a concrete input.  For the PaLM request with
    [stream: true] the rewriter throws, and the outgoing request it leaves
    was not destroyed. *)
Lemma streaming_request_is_not_destroyed :
  truthy (stream (body Scenario.palmStreaming)) = true
  /\ snd (Palm.rewritePalmRequest Scenario.passThrough Scenario.passThrough
            Scenario.passThrough Scenario.passThrough Scenario.passThrough
            Scenario.passThrough Scenario.outgoing Scenario.palmStreaming)
     = Some (Error "Google PaLM API doesn't support streaming requests")
  /\ destroyed
       (fst (fst (Palm.rewritePalmRequest Scenario.passThrough
                    Scenario.passThrough Scenario.passThrough
                    Scenario.passThrough Scenario.passThrough
                    Scenario.passThrough Scenario.outgoing
                    Scenario.palmStreaming)))
     = None.
Proof. repeat split; vm_compute; reflexivity. Qed.

(** *** The response handler *)

Section Handler.

Variable promptLogging : bool.

Local Abbreviation palmResponseHandler := (Palm.palmResponseHandler promptLogging).

(** A response that went through the transform has no [proxy_note]. *)
Lemma transformed_response_has_no_note uuid now req body_ resp :
  inboundApi req = openai ->
  palmResponseHandler uuid now req body_ = Ok resp ->
  exists fields,
    sent resp = Some (200, JObj fields)
    /\ assoc "proxy_note" fields = JUndefined.
Proof.
  intros Hin. unfold Palm.palmResponseHandler.
  destruct (negb _); [discriminate|].
  destruct (if promptLogging then _ else _) as [body1|]; [|discriminate].
  cbn [bind]. rewrite Hin. unfold transformPalmResponse.
  destruct (getProp body1 "candidates") as [c|]; [|discriminate]. cbn [bind].
  destruct (getIndex c 0) as [c0|]; [|discriminate]. cbn [bind].
  destruct (getProp c0 "output") as [out|]; [|discriminate]. cbn [bind].
  destruct (truthy (debug req)); cbn [bind setProp];
    intros [= <-]; eexists; split; reflexivity.
Qed.

(** C4, as amended.  For every PaLM response body in which
    [candidates[0].output] can be read (neither [candidates] nor its first
    element is missing or [null]) and every ticket with inbound dialect
    [openai], the handler answers 200 with an object whose [object] is
    [chat.completion], whose [id] is [plm-] followed by the drawn UUID, whose
    [choices[0].message] is the assistant message with that output as
    content, whose [choices[0].finish_reason] is [null], and whose [usage]
    has the prompt and output token counts of the ticket as they are and
    their sum, a missing count taken as [0], as total. *)
Theorem palm_response_is_chat_completion
    (uuid : string) (now : Z) (req : Request)
    (body_ candidates candidate output : value) :
  inboundApi req = openai ->
  getProp body_ "candidates" = Ok candidates ->
  getIndex candidates 0 = Ok candidate ->
  getProp candidate "output" = Ok output ->
  exists fields,
    palmResponseHandler uuid now req body_
    = Ok (status_json 200 (JObj fields) (res req))
    /\ assoc "object" fields = JStr "chat.completion"
    /\ assoc "id" fields = JStr ("plm-" ++ uuid)
    /\ bind (getIndex (assoc "choices" fields) 0) (fun c => getProp c "message")
       = Ok (JObj [("role", JStr "assistant"); ("content", output)])
    /\ bind (getIndex (assoc "choices" fields) 0)
            (fun c => getProp c "finish_reason")
       = Ok JNull
    /\ getProp (assoc "usage" fields) "prompt_tokens"
       = Ok (optional_number (promptTokens req))
    /\ getProp (assoc "usage" fields) "completion_tokens"
       = Ok (optional_number (outputTokens req))
    /\ getProp (assoc "usage" fields) "total_tokens"
       = Ok (JNum (or_zero (promptTokens req) + or_zero (outputTokens req))).
Proof.
  intros Hin Hc Hc0 Hout.
  assert (Hobj : exists fs, body_ = JObj fs /\ assoc "candidates" fs = candidates).
  { destruct body_; simpl in Hc; try discriminate;
      try (injection Hc as <-; simpl in Hc0; discriminate).
    eexists. split; [reflexivity | congruence]. }
  destruct Hobj as (fs & -> & Hfs).
  unfold Palm.palmResponseHandler. cbn [typeof String.eqb negb].
  assert (Hnoted :
            (if promptLogging
             then setProp (JObj fs) "proxy_note"
                    (JStr ("Prompts are logged on this proxy instance. See "
                             ++ template_of (host req) ++ " for more information."))
             else Ok (JObj fs))
            = Ok (JObj (if promptLogging
                        then assoc_set "proxy_note"
                               (JStr ("Prompts are logged on this proxy instance. See "
                                        ++ template_of (host req)
                                        ++ " for more information.")) fs
                        else fs))).
  { destruct promptLogging; reflexivity. }
  rewrite Hnoted. cbn [bind]. rewrite Hin. unfold transformPalmResponse.
  assert (Hc' : getProp (JObj (if promptLogging
                        then assoc_set "proxy_note"
                               (JStr ("Prompts are logged on this proxy instance. See "
                                        ++ template_of (host req)
                                        ++ " for more information.")) fs
                        else fs)) "candidates" = Ok candidates).
  { cbn [getProp]. destruct promptLogging; [|congruence].
    rewrite assoc_set_other; [congruence | reflexivity]. }
  rewrite Hc'. cbn [bind]. rewrite Hc0. cbn [bind]. rewrite Hout. cbn [bind].
  destruct (truthy (debug req)); cbn [bind setProp];
    eexists; (split; [reflexivity|]); repeat split; reflexivity.
Qed.

End Handler.

(** The theorem at scenario 5: the upstream body with the candidate "pong". *)
Lemma palm_response_is_chat_completion_witness :
  exists fields,
    Palm.palmResponseHandler false Scenario.uuid 2000 Scenario.palmTicket
                             Scenario.pong
    = Ok (status_json 200 (JObj fields) (res Scenario.palmTicket))
    /\ assoc "object" fields = JStr "chat.completion"
    /\ assoc "id" fields = JStr ("plm-" ++ Scenario.uuid)
    /\ bind (getIndex (assoc "choices" fields) 0) (fun c => getProp c "message")
       = Ok (JObj [("role", JStr "assistant"); ("content", JStr "pong")])
    /\ bind (getIndex (assoc "choices" fields) 0)
            (fun c => getProp c "finish_reason")
       = Ok JNull
    /\ getProp (assoc "usage" fields) "prompt_tokens" = Ok (JNum 3)
    /\ getProp (assoc "usage" fields) "completion_tokens" = Ok (JNum 1)
    /\ getProp (assoc "usage" fields) "total_tokens" = Ok (JNum 4).
Proof.
  apply (palm_response_is_chat_completion false Scenario.uuid 2000
           Scenario.palmTicket Scenario.pong
           (JArr [JObj [("output", JStr "pong")]])
           (JObj [("output", JStr "pong")])
           (JStr "pong")); reflexivity.
Defined.

(** C4, the claim on a concrete input.  For the body that PaLM returns when
    its safety filter blocks the prompt, which has no candidates, the handler
    raises a [TypeError] and sends no response. *)
Lemma blocked_palm_response_raises :
  inboundApi Scenario.palmTicket = openai
  /\ typeof Scenario.blocked = "object"
  /\ Palm.palmResponseHandler false Scenario.uuid 2000 Scenario.palmTicket
                              Scenario.blocked
     = Throw (TypeError "0")
  /\ Palm.palmResponseHandler true Scenario.uuid 2000 Scenario.palmTicket
                              Scenario.blocked
     = Throw (TypeError "0").
Proof. repeat split; vm_compute; reflexivity. Qed.

(** The note is set: a body that is not transformed keeps it. *)
Example untransformed_response_keeps_note :
  Palm.palmResponseHandler true Scenario.uuid 2000
    (set_inboundApi google_palm Scenario.palmTicket) Scenario.pong
  = Ok (status_json 200
          (JObj [("candidates", JArr [JObj [("output", JStr "pong")]]);
                 ("proxy_note",
                  JStr "Prompts are logged on this proxy instance. See proxy.example for more information.")])
          Scenario.freshResponse).
Proof. vm_compute. reflexivity. Qed.

(** C6 (the code departs from the claim).  With prompt logging enabled, the
    handler sets [proxy_note] on the PaLM body and then replaces the body by
    its transform: in scenario 5 the JSON sent to the client has no
    [proxy_note]. *)
Theorem transformed_response_loses_proxy_note :
  inboundApi Scenario.palmTicket = openai
  /\ exists fields,
      Palm.palmResponseHandler true Scenario.uuid 2000 Scenario.palmTicket
                               Scenario.pong
      = Ok (status_json 200 (JObj fields) (res Scenario.palmTicket))
      /\ assoc "proxy_note" fields = JUndefined
      /\ assoc "id" fields = JStr ("plm-" ++ Scenario.uuid).
Proof.
  split; [reflexivity|]. eexists. split; [vm_compute; reflexivity|].
  split; reflexivity.
Qed.

End PalmFacts.

(** ** More properties of the queue *)

Module QueueMore.
Import Js Queue Statements Frames QueueFacts.

(** *** Positions in an array *)

Lemma indexOf_absent_iff r (q : list ref) : indexOf r q = -1 <-> ~ In r q.
Proof.
  induction q as [|y q IH]; simpl; [intuition|].
  destruct (Nat.eqb_spec y r) as [->|Hne].
  - split; [discriminate | intros H; exfalso; apply H; now left].
  - destruct (Z.ltb_spec (indexOf r q) 0) as [Hlt|Hge].
    + split; [|reflexivity]. intros _ [Heq|Hin]; [congruence|].
      assert (Habs : indexOf r q = -1 -> ~ In r q) by apply IH.
      assert (Hneg : indexOf r q = -1).
      { clear - Hlt. induction q as [|z q IHq]; simpl in *; [reflexivity|].
        destruct (Nat.eqb z r); [lia|].
        destruct (Z.ltb_spec (indexOf r q) 0); [reflexivity | lia]. }
      now apply Habs.
    + split; [lia|]. intros Hnot. exfalso.
      assert (Hin : ~ In r q) by (intros Hin; apply Hnot; now right).
      apply IH in Hin. lia.
Qed.

Lemma indexOf_split r (q : list ref) :
  In r q ->
  exists before after,
    q = (before ++ r :: after)%list
    /\ ~ In r before
    /\ indexOf r q = Z.of_nat (length before).
Proof.
  induction q as [|y q IH]; simpl; [intros []|].
  intros Hin. destruct (Nat.eqb_spec y r) as [->|Hne].
  - exists [], q. repeat split; auto.
  - destruct Hin as [Heq|Hin]; [congruence|].
    destruct (IH Hin) as (before & after & -> & Hnot & Hidx).
    exists (y :: before), after. split; [reflexivity|]. split.
    + intros [Heq|Hb]; [congruence | now apply Hnot].
    + rewrite Hidx. destruct (Z.ltb_spec (Z.of_nat (length before)) 0); [lia|].
      simpl length. lia.
Qed.

Lemma splice_one {A} (before after : list A) (x : A) :
  snd (splice (before ++ x :: after) (Z.of_nat (length before)) 1)
  = (before ++ after)%list.
Proof.
  unfold splice. cbn [snd].
  rewrite length_app. cbn [length].
  destruct (Z.ltb_spec (Z.of_nat (length before)) 0) as [Hlt|_]; [lia|].
  rewrite Z.min_l by lia.
  rewrite Z.max_l by lia.
  rewrite Z.min_l by lia.
  rewrite Nat2Z.id. change (Z.to_nat 1) with 1%nat.
  rewrite firstn_app, Nat.sub_diag, firstn_all, firstn_O, app_nil_r.
  rewrite skipn_app.
  replace (length before + 1 - length before)%nat with 1%nat by lia.
  rewrite skipn_all2 by lia.
  reflexivity.
Qed.

(** *** What the operations leave alone *)

Lemma untouched_ticketInfo : untouched ticketInfo.
Proof. repeat split. Qed.

Lemma untouched_retryCount : untouched retryCount.
Proof. repeat split. Qed.

Lemma keeps_refl {T} (P : Request -> T) st : keeps P st st.
Proof. intros x. reflexivity. Qed.

Lemma keeps_trans {T} (P : Request -> T) a b c :
  keeps P a b -> keeps P b c -> keeps P a c.
Proof. intros H1 H2 x. now rewrite H2, H1. Qed.

Lemma keeps_mutate {T} (P : Request -> T) st r f :
  (forall q, P (f q) = P q) -> keeps P st (mutate r f st).
Proof.
  intros Hf x. simpl. unfold update.
  destruct (Nat.eqb_spec x r) as [->|]; auto.
Qed.

Lemma keeps_initStreaming {T} (P : Request -> T) st r :
  untouched P -> keeps P st (initStreaming st r).
Proof.
  intros (_ & _ & _ & Hres). unfold initStreaming. destruct (truthy _).
  - apply keeps_mutate. intros q. apply Hres.
  - eapply keeps_trans; apply keeps_mutate; intros q; apply Hres.
Qed.

Lemma keeps_killQueuedRequest {T} (P : Request -> T) st r :
  untouched P -> keeps P st (killQueuedRequest st r).
Proof.
  intros (_ & _ & _ & Hres). unfold killQueuedRequest.
  destruct (writableEnded _); [apply keeps_refl|].
  destruct (headersSent _); apply keeps_mutate; intros q; apply Hres.
Qed.

Lemma keeps_kill_all {T} (P : Request -> T) l st :
  untouched P -> keeps P st (fold_left killQueuedRequest l st).
Proof.
  intros HP. revert st. induction l as [|r l IH]; intros st; simpl.
  - apply keeps_refl.
  - eapply keeps_trans; [now apply keeps_killQueuedRequest | apply IH].
Qed.

Lemma keeps_cleanQueue {T} (P : Request -> T) now st :
  untouched P -> keeps P st (cleanQueue now st).
Proof.
  intros HP. unfold cleanQueue. intros x. cbn [heap with_waitTimes].
  now apply keeps_kill_all.
Qed.

Lemma keeps_removeFromQueue {T} (P : Request -> T) st r :
  untouched P -> keeps P st (removeFromQueue st r).
Proof.
  intros (_ & Hh & _ & _). unfold removeFromQueue.
  set (st1 := if negb _ then _ else st).
  assert (H1 : keeps P st st1).
  { subst st1. destruct (negb _); intros x; reflexivity. }
  destruct (heartbeatInterval _); [|exact H1].
  eapply keeps_trans; [exact H1 | apply keeps_mutate; intros q; apply Hh].
Qed.

Lemma keeps_enqueue {T} (P : Request -> T) S st r st' :
  untouched P -> enqueue S st r = Ok st' -> keeps P st st'.
Proof.
  intros HP He. pose proof HP as (Hq & Hh & Ha & Hres).
  unfold enqueue in He.
  destruct (admission S st (heap st r)) as [[]|]; [|discriminate].
  cbn [bind] in He. injection He as <-.
  eapply keeps_trans; [|apply keeps_mutate; intros q; apply Ha].
  set (st1 := mutate r (set_queueOutTime (Some 0)) _).
  assert (H1 : keeps P st st1).
  { subst st1. eapply keeps_trans;
      [|apply keeps_mutate; intros q; apply Hq]. intros x. reflexivity. }
  destruct (optedIntoStreaming _); [|exact H1].
  eapply keeps_trans; [exact H1|].
  eapply keeps_trans; [|apply keeps_mutate; intros q; apply Hh].
  destruct (negb _); [now apply keeps_initStreaming | apply keeps_refl].
Qed.




Lemma sameInfo_identifier S st st' x :
  keeps ticketInfo st st' ->
  getIdentifier S (heap st' x) = getIdentifier S (heap st x)
  /\ isFromSharedIp S (heap st' x) = isFromSharedIp S (heap st x)
  /\ user (heap st' x) = user (heap st x)
  /\ startTime (heap st' x) = startTime (heap st x).
Proof.
  intros H. specialize (H x). unfold ticketInfo in H.
  unfold getIdentifier, isFromSharedIp.
  injection H as -> -> -> -> _. auto.
Qed.

Lemma sameInfo_partition gC gO gP st st' x :
  keeps ticketInfo st st' ->
  getPartitionForRequest gC gO gP (heap st' x)
  = getPartitionForRequest gC gO gP (heap st x).
Proof.
  intros H. specialize (H x). unfold ticketInfo in H.
  unfold getPartitionForRequest.
  injection H as _ _ _ _ -> _ -> _ -> _. reflexivity.
Qed.

(** *** What [dequeue] and [removeFromQueue] do to the state *)

Section Removal.

Variable SHARED_IP_ADDRESSES : gset string.
Variable getClaudeModelFamily : string -> ModelFamily.
Variable getOpenAIModelFamily : string -> ModelFamily.
Variable getGooglePalmModelFamily : string -> ModelFamily.

Local Abbreviation getPartitionForRequest :=
  (Queue.getPartitionForRequest getClaudeModelFamily getOpenAIModelFamily
                                getGooglePalmModelFamily).
Local Abbreviation getQueueForPartition :=
  (Queue.getQueueForPartition SHARED_IP_ADDRESSES getClaudeModelFamily
                              getOpenAIModelFamily getGooglePalmModelFamily).
Local Abbreviation dequeue :=
  (Queue.dequeue SHARED_IP_ADDRESSES getClaudeModelFamily getOpenAIModelFamily
                 getGooglePalmModelFamily).
Local Abbreviation enqueue := (Queue.enqueue SHARED_IP_ADDRESSES).

(** The three assignments that [dequeue] makes to the request it returns. *)
Lemma dequeue_unfold now st p r :
  fst (dequeue now st p) = Some r ->
  exists st1 st2 st3,
    st1 = with_queue (snd (splice (queue st) (indexOf r (queue st)) 1)) st
    /\ st2 = (if onAborted (heap st1 r)
              then mutate r (set_onAborted false) st1 else st1)
    /\ st3 = match heartbeatInterval (heap st2 r) with
             | Some _ => mutate r (set_heartbeatInterval (Some Cleared)) st2
             | None => st2
             end
    /\ snd (dequeue now st p) = mutate r (set_queueOutTime (Some now)) st3.
Proof.
  unfold Queue.dequeue.
  destruct (getQueueForPartition st p) as [|first rest]; [discriminate|].
  cbv zeta. cbn [fst snd]. intros [= <-].
  do 3 eexists. repeat split; reflexivity.
Qed.

Lemma dequeue_queue now st p r :
  fst (dequeue now st p) = Some r ->
  queue (snd (dequeue now st p))
  = snd (splice (queue st) (indexOf r (queue st)) 1).
Proof.
  intros H. destruct (dequeue_unfold now st p r H)
    as (st1 & st2 & st3 & -> & -> & -> & ->).
  cbn [queue mutate with_heap].
  destruct (heartbeatInterval _); destruct (onAborted _); reflexivity.
Qed.

Lemma keeps_dequeue {T} (P : Request -> T) now st p :
  untouched P -> keeps P st (snd (dequeue now st p)).
Proof.
  intros (Hq & Hh & Ha & _).
  destruct (fst (dequeue now st p)) as [r|] eqn:H.
  - destruct (dequeue_unfold now st p r H)
      as (st1 & st2 & st3 & E1 & E2 & E3 & ->).
    assert (H1 : keeps P st st1) by (subst st1; intros x; reflexivity).
    assert (H2 : keeps P st1 st2).
    { subst st2. destruct (onAborted _);
        [apply keeps_mutate; intros q; apply Ha | apply keeps_refl]. }
    assert (H3 : keeps P st2 st3).
    { subst st3. destruct (heartbeatInterval _);
        [apply keeps_mutate; intros q; apply Hh | apply keeps_refl]. }
    eapply keeps_trans; [|apply keeps_mutate; intros q; apply Hq].
    eapply keeps_trans; [|exact H3].
    eapply keeps_trans; [exact H1 | exact H2].
  - unfold Queue.dequeue in *.
    destruct (getQueueForPartition st p); [apply keeps_refl | discriminate].
Qed.


Lemma dequeue_returns_member now st p r :
  fst (dequeue now st p) = Some r ->
  In r (queue st) /\ getPartitionForRequest (heap st r) = p.
Proof.
  unfold Queue.dequeue.
  destruct (getQueueForPartition st p) as [|first rest] eqn:Hq;
    [discriminate|].
  cbv zeta. cbn [fst]. intros [= <-].
  destruct (reduce_least (fun x => startTime (heap st x)) first rest)
    as [Hin _].
  cbv zeta in Hin. rewrite <- Hq in Hin.
  now apply In_getQueueForPartition in Hin.
Qed.

Lemma dequeue_none now st p :
  (fst (dequeue now st p) = None
   <-> forall x, In x (queue st) -> getPartitionForRequest (heap st x) <> p)
  /\ (fst (dequeue now st p) = None -> snd (dequeue now st p) = st).
Proof.
  unfold Queue.dequeue.
  destruct (getQueueForPartition st p) as [|first rest] eqn:Hq.
  - split; [|reflexivity]. split; [|reflexivity].
    intros _ x Hx Hp.
    assert (Hin : In x (getQueueForPartition st p))
      by (apply In_getQueueForPartition; now split).
    rewrite Hq in Hin. destruct Hin.
  - cbv zeta. cbn [fst snd]. split; [|discriminate].
    split; [discriminate|]. intros Hall. exfalso.
    assert (Hin : In first (getQueueForPartition st p))
      by (rewrite Hq; now left).
    apply In_getQueueForPartition in Hin. destruct Hin as [Hin Hp].
    exact (Hall _ Hin Hp).
Qed.

(** X2.  [dequeue] returns nothing exactly when no queued ticket belongs to the
    partition, and then it leaves the state as it is. *)
Theorem dequeue_nothing_iff_partition_empty now st p :
  (fst (dequeue now st p) = None
   <-> forall x, In x (queue st) -> getPartitionForRequest (heap st x) <> p)
  /\ (fst (dequeue now st p) = None -> snd (dequeue now st p) = st).
Proof. apply dequeue_none. Qed.

Lemma dequeue_split now st p r :
  fst (dequeue now st p) = Some r ->
  exists before after,
    queue st = (before ++ r :: after)%list
    /\ ~ In r before
    /\ queue (snd (dequeue now st p)) = (before ++ after)%list.
Proof.
  intros H.
  destruct (dequeue_returns_member now st p r H) as (Hin & _).
  destruct (indexOf_split r (queue st) Hin) as (before & after & Hq & Hnot & Hidx).
  exists before, after. split; [exact Hq|]. split; [exact Hnot|].
  rewrite (dequeue_queue now st p r H), Hidx.
  rewrite Hq at 1. apply splice_one.
Qed.

(** X3.  The ticket that [dequeue] returns leaves the queue at its first
    occurrence; the tickets before and after it keep their order. *)
Theorem dequeue_removes_first_occurrence now st p r :
  fst (dequeue now st p) = Some r ->
  exists before after,
    queue st = (before ++ r :: after)%list
    /\ ~ In r before
    /\ queue (snd (dequeue now st p)) = (before ++ after)%list.
Proof. apply dequeue_split. Qed.


(** *** Removal on close *)

Lemma removeFromQueue_queue st r :
  queue (removeFromQueue st r)
  = if negb (indexOf r (queue st) =? -1)
    then snd (splice (queue st) (indexOf r (queue st)) 1)
    else queue st.
Proof.
  unfold removeFromQueue.
  destruct (negb (indexOf r (queue st) =? -1));
    destruct (heartbeatInterval _); reflexivity.
Qed.

Lemma removeFromQueue_absent st r :
  ~ In r (queue st) -> queue (removeFromQueue st r) = queue st.
Proof.
  intros Hnot. rewrite removeFromQueue_queue.
  apply indexOf_absent_iff in Hnot. now rewrite Hnot.
Qed.

Lemma removeFromQueue_present st r before after :
  queue st = (before ++ r :: after)%list ->
  ~ In r before ->
  queue (removeFromQueue st r) = (before ++ after)%list.
Proof.
  intros Hq Hnot. rewrite removeFromQueue_queue.
  assert (Hin : In r (queue st)) by (rewrite Hq; apply in_elt).
  destruct (indexOf_split r (queue st) Hin) as (b & a & Hq' & Hnot' & Hidx).
  assert (Hb : b = before /\ a = after).
  { rewrite Hq in Hq'. clear - Hq' Hnot Hnot'.
    revert b Hq' Hnot'. induction before as [|y before IH]; intros b Hq' Hnot'.
    - destruct b as [|z b]; simpl in Hq'.
      + injection Hq' as <-. auto.
      + injection Hq' as <- _. exfalso. apply Hnot'. now left.
    - destruct b as [|z b]; simpl in Hq'.
      + injection Hq' as -> _. exfalso. apply Hnot. now left.
      + injection Hq' as <- Hq'.
        destruct (IH (fun H => Hnot (or_intror H)) b Hq'
                     (fun H => Hnot' (or_intror H))) as [-> ->].
        auto. }
  destruct Hb as [-> ->].
  rewrite Hidx.
  destruct (Z.eqb_spec (Z.of_nat (length before)) (-1)) as [Hneg|_]; [lia|].
  cbn [negb]. rewrite Hq. apply splice_one.
Qed.


(** X8.  A ticket that is not queued is enqueued and its client closes the
    connection: the queue is as before, and the ticket passes the admission
    test again. *)
Theorem enqueue_then_close_restores_queue st r st' :
  ~ In r (queue st) ->
  enqueue st r = Ok st' ->
  queue (removeFromQueue st' r) = queue st
  /\ exists st'', enqueue (removeFromQueue st' r) r = Ok st''.
Proof.
  intros Hnot He.
  destruct (enqueue_returns _ _ _ _ He) as (Ha & Hq & _).
  assert (Hback : queue (removeFromQueue st' r) = queue st).
  { rewrite (removeFromQueue_present st' r (queue st) [] Hq Hnot).
    apply app_nil_r. }
  split; [exact Hback|].
  assert (Hinfo : keeps ticketInfo st (removeFromQueue st' r)).
  { eapply keeps_trans;
      [apply (keeps_enqueue _ _ _ _ _ untouched_ticketInfo He)
      | apply keeps_removeFromQueue, untouched_ticketInfo]. }
  assert (Hretry : keeps retryCount st (removeFromQueue st' r)).
  { eapply keeps_trans;
      [apply (keeps_enqueue _ _ _ _ _ untouched_retryCount He)
      | apply keeps_removeFromQueue, untouched_retryCount]. }
  assert (Hadm : Queue.admission SHARED_IP_ADDRESSES (removeFromQueue st' r)
                   (heap (removeFromQueue st' r) r) = Ok tt).
  { rewrite <- Ha. unfold Queue.admission.
    rewrite Hback, (Hretry r).
    destruct (sameInfo_identifier SHARED_IP_ADDRESSES _ _ r Hinfo)
      as (_ & -> & -> & _).
    assert (Hf : List.filter
                   (fun q => sharesIdentifierWith SHARED_IP_ADDRESSES
                               (heap (removeFromQueue st' r) r)
                               (heap (removeFromQueue st' r) q)) (queue st)
                 = List.filter
                     (fun q => sharesIdentifierWith SHARED_IP_ADDRESSES
                                 (heap st r) (heap st q)) (queue st)).
    { apply filter_ext. intros q. unfold sharesIdentifierWith.
      destruct (sameInfo_identifier SHARED_IP_ADDRESSES _ _ q Hinfo) as (-> & _).
      destruct (sameInfo_identifier SHARED_IP_ADDRESSES _ _ r Hinfo) as (-> & _).
      reflexivity. }
    rewrite Hf. reflexivity. }
  unfold Queue.enqueue. rewrite Hadm. cbn [bind]. eexists. reflexivity.
Qed.

End Removal.

(** *** The order within a partition, and the lengths *)

Lemma insert_unflagged {A} (k : A -> bool) (x : A) (m : list A) :
  k x = false ->
  insert (fun a b => if k a && negb (k b) then 1
                     else if negb (k a) && k b then -1 else 0) x m
  = x :: m.
Proof.
  intros Hx. destruct m as [|y m]; [reflexivity|].
  cbn [insert]. rewrite Hx. cbn [andb negb].
  destruct (k y); reflexivity.
Qed.

Lemma insert_flagged {A} (k : A -> bool) (x : A) (front back : list A) :
  k x = true ->
  (forall y, In y front -> k y = false) ->
  (forall y, In y back -> k y = true) ->
  insert (fun a b => if k a && negb (k b) then 1
                     else if negb (k a) && k b then -1 else 0)
         x (front ++ back)
  = (front ++ x :: back)%list.
Proof.
  intros Hx Hfront Hback. induction front as [|y front IH].
  - destruct back as [|y back]; [reflexivity|].
    cbn [app insert]. rewrite Hx, (Hback y (or_introl eq_refl)). reflexivity.
  - cbn [app insert]. rewrite Hx, (Hfront y (or_introl eq_refl)).
    cbn [andb negb Z.ltb Z.compare].
    rewrite IH; [reflexivity|]. intros z Hz. apply Hfront. now right.
Qed.

(** Sorting by a flag puts the unflagged elements first and the flagged ones
    last, each group in the order it had. *)
Lemma sort_by_flag {A} (k : A -> bool) (l : list A) :
  sort (fun a b => if k a && negb (k b) then 1
                   else if negb (k a) && k b then -1 else 0) l
  = (List.filter (fun x => negb (k x)) l ++ List.filter k l)%list.
Proof.
  unfold sort. induction l as [|x l IH]; [reflexivity|].
  cbn [fold_right]. rewrite IH. cbn [List.filter].
  destruct (k x) eqn:Hx; cbn [negb].
  - apply insert_flagged; [exact Hx | |].
    + intros y Hy. apply filter_In in Hy. destruct Hy as [_ Hy].
      now apply negb_true_iff in Hy.
    + intros y Hy. apply filter_In in Hy. now destruct Hy.
  - now apply insert_unflagged.
Qed.

Lemma length_filter_split {A} (k : A -> bool) (l : list A) :
  (length (List.filter (fun x => negb (k x)) l) + length (List.filter k l)
   = length l)%nat.
Proof.
  induction l as [|x l IH]; [reflexivity|].
  cbn [List.filter]. destruct (k x); cbn [negb length]; lia.
Qed.

Section Partitions.

Variable SHARED_IP_ADDRESSES : gset string.
Variable getClaudeModelFamily : string -> ModelFamily.
Variable getOpenAIModelFamily : string -> ModelFamily.
Variable getGooglePalmModelFamily : string -> ModelFamily.
Variable getLockoutPeriod : string -> Z.

Local Abbreviation isFromSharedIp := (Queue.isFromSharedIp SHARED_IP_ADDRESSES).
Local Abbreviation getPartitionForRequest :=
  (Queue.getPartitionForRequest getClaudeModelFamily getOpenAIModelFamily
                                getGooglePalmModelFamily).
Local Abbreviation getQueueForPartition :=
  (Queue.getQueueForPartition SHARED_IP_ADDRESSES getClaudeModelFamily
                              getOpenAIModelFamily getGooglePalmModelFamily).
Local Abbreviation dequeue :=
  (Queue.dequeue SHARED_IP_ADDRESSES getClaudeModelFamily getOpenAIModelFamily
                 getGooglePalmModelFamily).
Local Abbreviation getQueueLength :=
  (Dispatcher.getQueueLength SHARED_IP_ADDRESSES getClaudeModelFamily
                             getOpenAIModelFamily getGooglePalmModelFamily).
Local Abbreviation visit :=
  (Dispatcher.visit SHARED_IP_ADDRESSES getClaudeModelFamily
                    getOpenAIModelFamily getGooglePalmModelFamily
                    getLockoutPeriod).
Local Abbreviation processQueue :=
  (Dispatcher.processQueue SHARED_IP_ADDRESSES getClaudeModelFamily
                           getOpenAIModelFamily getGooglePalmModelFamily
                           getLockoutPeriod).

(** X5.  The queue of a partition lists the tickets of the partition that do not
    come from a shared address, in the order of the queue, and after them the
    tickets of the partition that come from a shared address, in the order of
    the queue. *)
Theorem getQueueForPartition_regular_then_shared st p :
  getQueueForPartition st p
  = (List.filter (fun r => negb (isFromSharedIp (heap st r)))
       (List.filter
          (fun r => ModelFamily_eqb (getPartitionForRequest (heap st r)) p)
          (queue st))
     ++ List.filter (fun r => isFromSharedIp (heap st r))
          (List.filter
             (fun r => ModelFamily_eqb (getPartitionForRequest (heap st r)) p)
             (queue st)))%list.
Proof.
  unfold Queue.getQueueForPartition.
  apply (sort_by_flag (fun r => isFromSharedIp (heap st r))).
Qed.

Lemma getQueueLength_partition st p :
  getQueueLength st (Some p)
  = length (List.filter
              (fun r => ModelFamily_eqb (getPartitionForRequest (heap st r)) p)
              (queue st)).
Proof.
  unfold Dispatcher.getQueueLength, Queue.getQueueForPartition.
  rewrite (sort_by_flag (fun r => isFromSharedIp (heap st r))).
  rewrite length_app. apply length_filter_split.
Qed.

(** X6.  Every queued ticket is counted in exactly one partition: the lengths of
    the six partitions add up to the length of the queue. *)
Theorem getQueueLength_partitions_add_up st :
  (getQueueLength st (Some turbo) + getQueueLength st (Some gpt4)
   + getQueueLength st (Some gpt4_32k) + getQueueLength st (Some claude)
   + getQueueLength st (Some bison) + getQueueLength st (Some aws_claude)
   = getQueueLength st None)%nat.
Proof.
  rewrite !getQueueLength_partition. cbn [Dispatcher.getQueueLength].
  induction (queue st) as [|r q IH]; [reflexivity|].
  cbn [List.filter length].
  destruct (getPartitionForRequest (heap st r));
    cbn [ModelFamily_eqb length]; lia.
Qed.

(** *** One tick of the dispatcher *)

Lemma partition_count_dequeue now st p' p :
  getQueueLength (snd (dequeue now st p')) (Some p)
  = if ModelFamily_eqb p' p then Nat.pred (getQueueLength st (Some p))
    else getQueueLength st (Some p).
Proof.
  rewrite !getQueueLength_partition.
  assert (Hext : forall q,
             List.filter
               (fun r => ModelFamily_eqb
                           (getPartitionForRequest
                              (heap (snd (dequeue now st p')) r)) p) q
             = List.filter
                 (fun r => ModelFamily_eqb
                             (getPartitionForRequest (heap st r)) p) q).
  { intros q. apply filter_ext. intros r.
    rewrite (sameInfo_partition _ _ _ st _ r
               (keeps_dequeue SHARED_IP_ADDRESSES getClaudeModelFamily
                  getOpenAIModelFamily getGooglePalmModelFamily ticketInfo now st p'
                              untouched_ticketInfo)).
    reflexivity. }
  rewrite Hext.
  destruct (fst (dequeue now st p')) as [r|] eqn:Hr.
  - destruct (dequeue_split SHARED_IP_ADDRESSES getClaudeModelFamily
                  getOpenAIModelFamily getGooglePalmModelFamily now st p' r Hr)
      as (before & after & Hq & _ & Hq').
    destruct (dequeue_returns_member SHARED_IP_ADDRESSES getClaudeModelFamily
                  getOpenAIModelFamily getGooglePalmModelFamily now st p' r Hr) as [_ Hp].
    rewrite Hq', Hq, !List.filter_app, !length_app. cbn [List.filter].
    rewrite Hp. destruct (ModelFamily_eqb p' p); cbn [length]; lia.
  - destruct (dequeue_none SHARED_IP_ADDRESSES getClaudeModelFamily
                  getOpenAIModelFamily getGooglePalmModelFamily now st p')
      as [Hiff Hsame].
    rewrite (Hsame Hr).
    destruct (ModelFamily_eqb p' p) eqn:Hpp; [|reflexivity].
    apply ModelFamily_eqb_eq in Hpp. subst p'.
    assert (Hnone :
              List.filter
                (fun r => ModelFamily_eqb (getPartitionForRequest (heap st r)) p)
                (queue st) = []).
    { destruct (List.filter _ (queue st)) as [|x l] eqn:Hf; [reflexivity|].
      exfalso.
      assert (Hin : In x (List.filter
                            (fun r => ModelFamily_eqb
                                        (getPartitionForRequest (heap st r)) p)
                            (queue st))) by (rewrite Hf; now left).
      apply filter_In in Hin. destruct Hin as [Hin Hp].
      apply ModelFamily_eqb_eq in Hp.
      exact (proj1 Hiff Hr x Hin Hp). }
    rewrite Hnone. reflexivity.
Qed.

Lemma partition_count_visit now acc p' p :
  getQueueLength (snd (visit now acc p')) (Some p)
  = if ModelFamily_eqb p' p && (getLockoutPeriod (Dispatcher.lockoutModel p') =? 0)
    then Nat.pred (getQueueLength (snd acc) (Some p))
    else getQueueLength (snd acc) (Some p).
Proof.
  destruct acc as [reqs st]. unfold Dispatcher.visit. cbn [snd].
  destruct (getLockoutPeriod (Dispatcher.lockoutModel p') =? 0).
  - pose proof (partition_count_dequeue (now p') st p' p) as H.
    destruct (dequeue (now p') st p') as [req st']. cbn [snd] in *.
    rewrite H, andb_true_r. reflexivity.
  - rewrite andb_false_r. reflexivity.
Qed.

(** X11.  One tick takes one ticket out of every partition that has a waiting
    ticket and whose model is not locked out, and none out of the others. *)
Theorem processQueue_serves_one_per_open_partition now st p :
  getQueueLength (snd (processQueue now st)) (Some p)
  = (getQueueLength st (Some p)
     - (if (getLockoutPeriod (Dispatcher.lockoutModel p) =? 0)%Z
        then 1 else 0))%nat.
Proof.
  unfold Dispatcher.processQueue, Dispatcher.tickOrder. cbn [fold_left].
  match goal with
  | |- context [let (_, _) := ?a in _] =>
      replace (snd (let (reqs, st') := a in (Dispatcher.defined reqs, st')))
        with (snd a) by (destruct a; reflexivity)
  end.
  rewrite !partition_count_visit. cbn [snd].
  destruct p; cbn [ModelFamily_eqb andb];
    destruct (getLockoutPeriod _ =? 0); lia.
Qed.

Lemma visit_served now acc p' st0 :
  (length (queue (snd acc)) + length (Dispatcher.defined (fst acc))
   = length (queue st0))%nat ->
  (forall x, In x (queue (snd acc)) -> In x (queue st0)) ->
  keeps ticketInfo st0 (snd acc) ->
  (forall r, In r (Dispatcher.defined (fst acc)) ->
             In r (queue st0)
             /\ getLockoutPeriod
                  (Dispatcher.lockoutModel (getPartitionForRequest (heap st0 r)))
                = 0) ->
  (length (queue (snd (visit now acc p')))
   + length (Dispatcher.defined (fst (visit now acc p')))
   = length (queue st0))%nat
  /\ (forall x, In x (queue (snd (visit now acc p'))) -> In x (queue st0))
  /\ keeps ticketInfo st0 (snd (visit now acc p'))
  /\ (forall r, In r (Dispatcher.defined (fst (visit now acc p'))) ->
                In r (queue st0)
                /\ getLockoutPeriod
                     (Dispatcher.lockoutModel
                        (getPartitionForRequest (heap st0 r)))
                   = 0).
Proof.
  destruct acc as [reqs st]. cbn [fst snd]. intros Hlen Hsub Hinfo Hserved.
  unfold Dispatcher.visit.
  destruct (Z.eqb_spec (getLockoutPeriod (Dispatcher.lockoutModel p')) 0)
    as [Hopen|Hlocked]; [|cbn [fst snd]; auto].
  pose proof (keeps_dequeue SHARED_IP_ADDRESSES getClaudeModelFamily
                  getOpenAIModelFamily getGooglePalmModelFamily ticketInfo (now p') st p'
                            untouched_ticketInfo) as Hkeep.
  destruct (fst (dequeue (now p') st p')) as [r|] eqn:Hr.
  - destruct (dequeue_split SHARED_IP_ADDRESSES getClaudeModelFamily
                  getOpenAIModelFamily getGooglePalmModelFamily (now p') st p' r Hr)
      as (before & after & Hq & _ & Hq').
    destruct (dequeue_returns_member SHARED_IP_ADDRESSES getClaudeModelFamily
                  getOpenAIModelFamily getGooglePalmModelFamily (now p') st p' r Hr) as [Hin Hp].
    destruct (dequeue (now p') st p') as [req st']. cbn [fst snd] in *.
    subst req.
    unfold Dispatcher.defined in *. rewrite flat_map_app, length_app.
    cbn [flat_map app length].
    split; [|split; [|split]].
    + rewrite Hq' , length_app. rewrite Hq, length_app in Hlen.
      cbn [length] in Hlen. lia.
    + intros x Hx. apply Hsub. rewrite Hq. rewrite Hq' in Hx.
      apply in_app_or in Hx. apply in_or_app.
      destruct Hx; [now left | right; now right].
    + eapply keeps_trans; [exact Hinfo | exact Hkeep].
    + intros x Hx. apply in_app_or in Hx. destruct Hx as [Hx|[<-|[]]].
      * now apply Hserved.
      * split; [now apply Hsub|].
        rewrite <- (sameInfo_partition _ _ _ st0 st r Hinfo), Hp.
        exact Hopen.
  - destruct (dequeue_none SHARED_IP_ADDRESSES getClaudeModelFamily
                  getOpenAIModelFamily getGooglePalmModelFamily (now p') st p')
      as [_ Hsame].
    specialize (Hsame Hr).
    destruct (dequeue (now p') st p') as [req st']. cbn [fst snd] in *.
    subst req st'.
    unfold Dispatcher.defined in *. rewrite flat_map_app, length_app.
    cbn [flat_map app length]. rewrite Nat.add_0_r.
    split; [exact Hlen|]. split; [exact Hsub|]. split; [exact Hinfo|].
    intros x Hx. apply in_app_or in Hx. destruct Hx as [Hx|[]].
    now apply Hserved.
Qed.

(** X12.  The tickets that one tick resumes were all waiting in the queue, each in
    a partition whose model is not locked out; they are at most six, and the
    queue is shorter by their number. *)
Theorem processQueue_resumes_waiting_tickets now st :
  (length (queue (snd (processQueue now st)))
   + length (fst (processQueue now st))
   = length (queue st))%nat
  /\ (length (fst (processQueue now st)) <= 6)%nat
  /\ forall r, In r (fst (processQueue now st)) ->
               In r (queue st)
               /\ getLockoutPeriod
                    (Dispatcher.lockoutModel
                       (getPartitionForRequest (heap st r)))
                  = 0.
Proof.
  assert (Hall : forall l acc,
             (length (queue (snd acc)) + length (Dispatcher.defined (fst acc))
              = length (queue st))%nat ->
             (forall x, In x (queue (snd acc)) -> In x (queue st)) ->
             keeps ticketInfo st (snd acc) ->
             (forall r, In r (Dispatcher.defined (fst acc)) ->
                        In r (queue st)
                        /\ getLockoutPeriod
                             (Dispatcher.lockoutModel
                                (getPartitionForRequest (heap st r)))
                           = 0) ->
             let out := fold_left (visit now) l acc in
             (length (queue (snd out)) + length (Dispatcher.defined (fst out))
              = length (queue st))%nat
             /\ (length (Dispatcher.defined (fst out))
                 <= length (Dispatcher.defined (fst acc)) + length l)%nat
             /\ (forall r, In r (Dispatcher.defined (fst out)) ->
                           In r (queue st)
                           /\ getLockoutPeriod
                                (Dispatcher.lockoutModel
                                   (getPartitionForRequest (heap st r)))
                              = 0)).
  { induction l as [|p' l IH]; intros acc H1 H2 H3 H4; cbn [fold_left].
    - cbv zeta. split; [exact H1|]. split; [cbn [length]; lia | exact H4].
    - destruct (visit_served now acc p' st H1 H2 H3 H4) as (V1 & V2 & V3 & V4).
      specialize (IH _ V1 V2 V3 V4). cbv zeta in IH |- *.
      destruct IH as (I1 & I2 & I3).
      split; [exact I1|]. split; [|exact I3].
      assert (Hone : (length (Dispatcher.defined (fst (visit now acc p')))
                      <= length (Dispatcher.defined (fst acc)) + 1)%nat).
      { destruct acc as [reqs st1]. unfold Dispatcher.visit. cbn [fst snd].
        destruct (getLockoutPeriod _ =? 0); [|cbn [fst]; lia].
        destruct (dequeue (now p') st1 p') as [[r|] st']; cbn [fst];
          unfold Dispatcher.defined; rewrite flat_map_app, length_app;
          cbn [flat_map app length]; lia. }
      cbn [length]. lia. }
  specialize (Hall Dispatcher.tickOrder ([], st)).
  cbn [fst snd Dispatcher.defined flat_map length] in Hall.
  specialize (Hall (Nat.add_0_r _) (fun x H => H) (keeps_refl _ st)
                   (fun r (H : False) => match H with end)).
  cbv zeta in Hall. unfold Dispatcher.processQueue.
  destruct (fold_left (visit now) Dispatcher.tickOrder ([], st)) as [reqs st'].
  cbn [fst snd] in *. destruct Hall as (A1 & A2 & A3).
  split; [exact A1|]. split; [|exact A3].
  unfold Dispatcher.tickOrder in A2. cbn [length] in A2. lia.
Qed.

End Partitions.

(** *** One queue slot per regular identity *)

Lemma filter_at_most_one {A} (P : A -> bool) (l : list A) (a b : A) :
  (length (List.filter P l) <= 1)%nat ->
  In a l -> In b l -> P a = true -> P b = true -> a = b.
Proof.
  induction l as [|x l IH]; [intros _ []|].
  cbn [List.filter]. intros Hlen Ha Hb Pa Pb.
  destruct (P x) eqn:Px.
  - cbn [length] in Hlen.
    assert (Hnil : List.filter P l = [])
      by (destruct (List.filter P l); [reflexivity | cbn [length] in Hlen; lia]).
    assert (Hnone : forall y, In y l -> P y = true -> False).
    { intros y Hy Py.
      assert (Hin : In y (List.filter P l)) by (apply filter_In; now split).
      rewrite Hnil in Hin. destruct Hin. }
    destruct Ha as [<-|Ha]; destruct Hb as [<-|Hb]; auto.
    + exfalso. eapply Hnone; eauto.
    + exfalso. eapply Hnone; eauto.
    + exfalso. eapply Hnone; eauto.
  - destruct Ha as [<-|Ha]; [congruence|].
    destruct Hb as [<-|Hb]; [congruence|].
    now apply IH.
Qed.

Lemma length_filter_implies {A} (P Q : A -> bool) (l : list A) :
  (forall x, P x = true -> Q x = true) ->
  (length (List.filter P l) <= length (List.filter Q l))%nat.
Proof.
  intros HPQ. induction l as [|x l IH]; [reflexivity|].
  cbn [List.filter]. destruct (P x) eqn:Px.
  - rewrite (HPQ x Px). cbn [length]. lia.
  - destruct (Q x); cbn [length]; lia.
Qed.

Section Identity.

Variable SHARED_IP_ADDRESSES : gset string.
Variable getClaudeModelFamily : string -> ModelFamily.
Variable getOpenAIModelFamily : string -> ModelFamily.
Variable getGooglePalmModelFamily : string -> ModelFamily.
Variable NODE_ENV : option string.
Variable stack : exn -> string.

Local Abbreviation isFromSharedIp := (Queue.isFromSharedIp SHARED_IP_ADDRESSES).
Local Abbreviation getIdentifier := (Queue.getIdentifier SHARED_IP_ADDRESSES).
Local Abbreviation enqueue := (Queue.enqueue SHARED_IP_ADDRESSES).
Local Abbreviation regularWith := (Frames.regularWith SHARED_IP_ADDRESSES).
Local Abbreviation step :=
  (Statements.step SHARED_IP_ADDRESSES getClaudeModelFamily getOpenAIModelFamily
                   getGooglePalmModelFamily NODE_ENV stack).
Local Abbreviation reachable :=
  (Statements.reachable SHARED_IP_ADDRESSES getClaudeModelFamily
                        getOpenAIModelFamily getGooglePalmModelFamily NODE_ENV stack).

Lemma keeps_heartbeat {T} (P : Request -> T) now st r :
  untouched P ->
  keeps P st (heartbeat getClaudeModelFamily getOpenAIModelFamily
                        getGooglePalmModelFamily NODE_ENV now st r).
Proof.
  intros (_ & _ & _ & Hres). unfold heartbeat.
  destruct (bool_decide _).
  - destruct (negb _);
      [apply keeps_mutate; intros q; apply Hres | apply keeps_refl].
  - apply keeps_mutate; intros q; apply Hres.
Qed.

Lemma keeps_createQueueMiddleware {T} (P : Request -> T) st r :
  untouched P ->
  keeps P st (createQueueMiddleware SHARED_IP_ADDRESSES stack st r).
Proof.
  intros HP. unfold createQueueMiddleware.
  destruct (enqueue st r) as [st'|err] eqn:He.
  - now apply (keeps_enqueue P SHARED_IP_ADDRESSES st r).
  - destruct HP as (_ & _ & _ & Hres).
    apply keeps_mutate; intros q; apply Hres.
Qed.

Lemma step_keeps_info st st' : step st st' -> keeps ticketInfo st st'.
Proof.
  intros Hstep. destruct Hstep as
    [st r st' He | st r | now st p | st r | now st | now st r | now st r | st r].
  - now apply (keeps_enqueue _ SHARED_IP_ADDRESSES st r).
  - apply keeps_createQueueMiddleware, untouched_ticketInfo.
  - apply keeps_dequeue, untouched_ticketInfo.
  - apply keeps_removeFromQueue, untouched_ticketInfo.
  - apply keeps_cleanQueue, untouched_ticketInfo.
  - apply keeps_heartbeat, untouched_ticketInfo.
  - intros x. reflexivity.
  - now apply keeps_mutate.
Qed.

Lemma regularWith_keeps st st' i q :
  keeps ticketInfo st st' ->
  List.filter
    (fun x => negb (isFromSharedIp (heap st' x))
              && String.eqb (getIdentifier (heap st' x)) i) q
  = List.filter
      (fun x => negb (isFromSharedIp (heap st x))
                && String.eqb (getIdentifier (heap st x)) i) q.
Proof.
  intros Hk. apply filter_ext. intros x.
  destruct (sameInfo_identifier SHARED_IP_ADDRESSES st st' x Hk)
    as (-> & -> & _). reflexivity.
Qed.

Lemma regularWith_enqueue st r st' i :
  enqueue st r = Ok st' ->
  (length (regularWith st i) <= 1)%nat ->
  (length (regularWith st' i) <= 1)%nat.
Proof.
  intros He Hlen.
  destruct (enqueue_returns _ _ _ _ He) as (Ha & Hq & _).
  unfold Frames.regularWith in *.
  rewrite Hq.
  rewrite (regularWith_keeps st st' i _
             (keeps_enqueue _ _ _ _ _ untouched_ticketInfo He)).
  rewrite List.filter_app, length_app. cbn [List.filter].
  destruct (isFromSharedIp (heap st r)) eqn:Hs; cbn [negb andb length];
    [lia|].
  destruct (String.eqb_spec (getIdentifier (heap st r)) i) as [Hi|Hi];
    cbn [length]; [|lia].
  apply admission_passes in Ha.
  assert (Hzero : queuedWithIdentity SHARED_IP_ADDRESSES st (heap st r) = 0%nat).
  { destruct (queuedWithIdentity SHARED_IP_ADDRESSES st (heap st r)) eqn:Hn;
      [reflexivity|]. exfalso. apply Ha. split; [|now left].
    unfold identityCap. rewrite Hs, Hn. destruct (user _); lia. }
  unfold queuedWithIdentity in Hzero.
  pose proof (length_filter_implies
                (fun q => negb (isFromSharedIp (heap st q))
                          && String.eqb (getIdentifier (heap st q)) i)
                (fun q => String.eqb (getIdentifier (heap st q))
                                     (getIdentifier (heap st r)))
                (queue st)) as Hle.
  rewrite Hzero in Hle.
  assert (Himp : forall x,
             negb (isFromSharedIp (heap st x))
             && String.eqb (getIdentifier (heap st x)) i = true ->
             String.eqb (getIdentifier (heap st x))
                        (getIdentifier (heap st r)) = true).
  { intros x Hx. apply andb_true_iff in Hx. destruct Hx as [_ Hx].
    now rewrite Hi. }
  specialize (Hle Himp). lia.
Qed.

Lemma regularWith_shorter st st' i before after x :
  keeps ticketInfo st st' ->
  queue st = (before ++ x :: after)%list ->
  queue st' = (before ++ after)%list ->
  (length (regularWith st' i) <= length (regularWith st i))%nat.
Proof.
  intros Hk Hq Hq'. unfold Frames.regularWith.
  rewrite Hq', (regularWith_keeps st st' i _ Hk), Hq.
  rewrite !List.filter_app, !length_app. cbn [List.filter].
  destruct (_ && _); cbn [length]; lia.
Qed.

Lemma regularWith_same st st' i :
  keeps ticketInfo st st' ->
  queue st' = queue st ->
  regularWith st' i = regularWith st i.
Proof.
  intros Hk Hq. unfold Frames.regularWith. rewrite Hq.
  now apply regularWith_keeps.
Qed.

Lemma step_keeps_regular st st' i :
  step st st' ->
  (length (regularWith st i) <= 1)%nat ->
  (length (regularWith st' i) <= 1)%nat.
Proof.
  intros Hstep Hlen. pose proof (step_keeps_info st st' Hstep) as Hk.
  destruct Hstep as
    [st r st' He | st r | now st p | st r | now st | now st r | now st r | st r].
  - now apply (regularWith_enqueue st r).
  - unfold createQueueMiddleware in *.
    destruct (enqueue st r) as [st'|err] eqn:He.
    + now apply (regularWith_enqueue st r).
    + now rewrite (regularWith_same _ _ i Hk eq_refl).
  - destruct (fst (dequeue SHARED_IP_ADDRESSES getClaudeModelFamily
                     getOpenAIModelFamily getGooglePalmModelFamily now st p))
      as [r|] eqn:Hr.
    + destruct (dequeue_split SHARED_IP_ADDRESSES getClaudeModelFamily
                  getOpenAIModelFamily getGooglePalmModelFamily now st p r Hr)
        as (before & after & Hq & _ & Hq').
      pose proof (regularWith_shorter _ _ i _ _ _ Hk Hq Hq'). lia.
    + destruct (dequeue_none SHARED_IP_ADDRESSES getClaudeModelFamily
                  getOpenAIModelFamily getGooglePalmModelFamily now st p)
        as [_ Hsame].
      now rewrite (Hsame Hr).
  - destruct (in_dec Nat.eq_dec r (queue st)) as [Hin|Hnot].
    + destruct (indexOf_split r (queue st) Hin)
        as (before & after & Hq & Hb & _).
      pose proof (regularWith_shorter _ _ i _ _ _ Hk Hq
                    (removeFromQueue_present st r before after Hq Hb)).
      lia.
    + now rewrite (regularWith_same _ _ i Hk (removeFromQueue_absent st r Hnot)).
  - destruct (sameQueue_cleanQueue now st) as [Hq _].
    now rewrite (regularWith_same _ _ i Hk Hq).
  - destruct (sameQueue_heartbeat getClaudeModelFamily getOpenAIModelFamily
                getGooglePalmModelFamily NODE_ENV now st r) as [Hq _].
    now rewrite (regularWith_same _ _ i Hk Hq).
  - now rewrite (regularWith_same _ _ i Hk eq_refl).
  - now rewrite (regularWith_same _ _ i Hk eq_refl).
Qed.

Lemma reachable_regularWith st i :
  reachable st -> (length (regularWith st i) <= 1)%nat.
Proof.
  induction 1 as [h | st st' Hreach IH Hstep].
  - cbn. lia.
  - now apply (step_keeps_regular st st').
Qed.

(** X9.  In every state that the operations reach from an empty queue, two queued
    tickets that do not come from a shared address never have the same
    identity: a user token, a Risu token or a regular address holds at most
    one slot of the queue. *)
Theorem regular_identity_holds_one_slot st T U :
  reachable st ->
  In T (queue st) -> In U (queue st) ->
  isFromSharedIp (heap st T) = false ->
  isFromSharedIp (heap st U) = false ->
  getIdentifier (heap st T) = getIdentifier (heap st U) ->
  T = U.
Proof.
  intros Hreach HT HU HsT HsU Hid.
  pose proof (reachable_regularWith st (getIdentifier (heap st T)) Hreach) as Hlen.
  unfold Frames.regularWith in Hlen.
  apply (filter_at_most_one _ _ T U Hlen HT HU).
  - rewrite HsT, String.eqb_refl. reflexivity.
  - rewrite HsU, Hid, String.eqb_refl. reflexivity.
Qed.

End Identity.

(** *** What a streaming client is sent when it joins and while it waits *)

Section Waiting.

Variable SHARED_IP_ADDRESSES : gset string.
Variable getClaudeModelFamily : string -> ModelFamily.
Variable getOpenAIModelFamily : string -> ModelFamily.
Variable getGooglePalmModelFamily : string -> ModelFamily.

Local Abbreviation enqueue := (Queue.enqueue SHARED_IP_ADDRESSES).
Local Abbreviation isFromSharedIp := (Queue.isFromSharedIp SHARED_IP_ADDRESSES).
Local Abbreviation getPartitionForRequest :=
  (Queue.getPartitionForRequest getClaudeModelFamily getOpenAIModelFamily
                                getGooglePalmModelFamily).
Local Abbreviation dequeue :=
  (Queue.dequeue SHARED_IP_ADDRESSES getClaudeModelFamily getOpenAIModelFamily
                 getGooglePalmModelFamily).
Local Abbreviation trackWaitTime :=
  (Queue.trackWaitTime SHARED_IP_ADDRESSES getClaudeModelFamily
                       getOpenAIModelFamily getGooglePalmModelFamily).

Ltac read_request :=
  repeat (rewrite ?update_same;
          cbn [heap queue res badSseParser set_res set_queueOutTime
               set_onAborted set_heartbeatInterval headersSent written
               initializeSseStream write mutate with_heap with_queue
               heartbeatInterval queueOutTime onAborted body stream
               isStreaming writableEnded sent]).

(** X13.  An admitted ticket gets queue-out time [0] and an abort hook.  If it
    opted into streaming, its heartbeat runs and the headers of its response
    are sent; and if they had not been sent before and the client did not ask
    for a stream without comments, the client is written one comment line
    with the position of the ticket, the length of the queue after the push.
    Nothing else is written, and no other request is changed. *)
Theorem enqueue_announces_position st r st' :
  enqueue st r = Ok st' ->
  writtenSince st st' r
  = (if optedIntoStreaming (heap st r)
        && negb (headersSent (res (heap st r)))
        && negb (truthy (badSseParser (heap st r)))
     then [Text (": joining queue at position "
                   ++ string_of_nat (length (queue st) + 1) ++ nl ++ nl)]
     else [])
  /\ heartbeatInterval (heap st' r)
     = (if optedIntoStreaming (heap st r) then Some Running
        else heartbeatInterval (heap st r))
  /\ headersSent (res (heap st' r))
     = headersSent (res (heap st r)) || optedIntoStreaming (heap st r)
  /\ queueOutTime (heap st' r) = Some 0
  /\ onAborted (heap st' r) = true
  /\ forall x, x <> r -> heap st' x = heap st x.
Proof.
  intros He. split; [|split; [|split; [|split; [|split]]]].
  6: { intros x Hx. unfold Queue.enqueue in He.
       destruct (Queue.admission _ st (heap st r)) as [[]|]; [|discriminate].
       cbn [bind] in He. injection He as <-.
       unfold initStreaming.
       destruct (optedIntoStreaming _);
         [destruct (negb _); [destruct (truthy _)|]|];
         cbn [mutate with_heap heap with_queue];
         rewrite ?(update_other _ _ _ _ Hx); reflexivity. }
  all: unfold Queue.enqueue in He;
    destruct (Queue.admission _ st (heap st r)) as [[]|]; [|discriminate];
    cbn [bind] in He; injection He as <-;
    unfold writtenSince, initStreaming, optedIntoStreaming; read_request;
    destruct (stream (body (heap st r))) as [| |[|]| |s|?|?];
    try destruct (String.eqb s "true");
    try destruct (isStreaming (heap st r));
    cbn [orb andb negb]; read_request;
    destruct (headersSent (res (heap st r))) eqn:Hh;
    cbn [orb andb negb]; read_request;
    try destruct (truthy (badSseParser (heap st r))) eqn:Hb;
    cbn [orb andb negb]; read_request; rewrite ?Hb; read_request;
    rewrite ?length_app; cbn [length];
    rewrite ?skipn_all; rewrite ?skipn_app, ?skipn_all, ?Nat.sub_diag;
    rewrite ?Hh; reflexivity.
Qed.

(** X14.  In production mode a firing of the heartbeat writes one comment line to
    its client, or nothing when the client asked for a stream without
    comments; it writes no event, and it leaves the queue, the wait samples
    and every other request as they are. *)
Theorem heartbeat_in_production_writes_comment now st r :
  let st' := heartbeat getClaudeModelFamily getOpenAIModelFamily
                       getGooglePalmModelFamily (Some "production") now st r in
  writtenSince st st' r
  = (if truthy (badSseParser (heap st r)) then []
     else [Text (": queue heartbeat" ++ nl ++ nl)])
  /\ Forall (fun c => isComment c = true) (writtenSince st st' r)
  /\ queue st' = queue st
  /\ waitTimes st' = waitTimes st
  /\ forall x, x <> r -> heap st' x = heap st x.
Proof.
  cbv zeta. unfold heartbeat.
  rewrite (bool_decide_eq_true_2 _ (eq_refl (Some "production"))).
  unfold writtenSince.
  destruct (truthy (badSseParser (heap st r))); cbn [negb].
  - rewrite skipn_all. split; [reflexivity|]. split; [constructor|].
    split; [reflexivity|]. split; [reflexivity|]. intros x _. reflexivity.
  - read_request. rewrite skipn_app, skipn_all, Nat.sub_diag.
    rewrite skipn_O. cbn [app].
    split; [reflexivity|]. split; [repeat constructor|].
    split; [reflexivity|]. split; [reflexivity|].
    intros x Hx. now apply update_other.
Qed.

(** *** Recording the wait *)

(** X15.  The sample recorded for a dequeued ticket ends at the clock value of the
    [dequeue], whenever it is recorded, starts at the start-time of the
    ticket, and carries the partition the ticket was dequeued from and
    whether it comes from a shared address. *)
Theorem trackWaitTime_records_dequeue_time left_ tracked st p r :
  fst (dequeue left_ st p) = Some r ->
  waitTimes (trackWaitTime tracked (snd (dequeue left_ st p)) r)
  = (waitTimes st
     ++ [{| partition := p;
            start := startTime (heap st r);
            end_time := left_;
            isDeprioritized := isFromSharedIp (heap st r) |}])%list.
Proof.
  intros H.
  pose proof (keeps_dequeue SHARED_IP_ADDRESSES getClaudeModelFamily
                getOpenAIModelFamily getGooglePalmModelFamily ticketInfo
                left_ st p untouched_ticketInfo) as Hk.
  destruct (dequeue_returns_member SHARED_IP_ADDRESSES getClaudeModelFamily
              getOpenAIModelFamily getGooglePalmModelFamily left_ st p r H)
    as [_ Hp].
  unfold Queue.trackWaitTime. cbn [waitTimes with_waitTimes].
  rewrite (sameInfo_partition _ _ _ st _ r Hk), Hp.
  destruct (sameInfo_identifier SHARED_IP_ADDRESSES st _ r Hk)
    as (_ & -> & _ & ->).
  destruct (dequeue_unfold SHARED_IP_ADDRESSES getClaudeModelFamily
              getOpenAIModelFamily getGooglePalmModelFamily left_ st p r H)
    as (st1 & st2 & st3 & -> & -> & -> & ->).
  read_request.
  destruct (onAborted (heap st r)); read_request;
    destruct (heartbeatInterval (heap st r)) eqn:Hh; read_request;
    rewrite ?Hh; read_request; reflexivity.
Qed.

(** X16.  Recording the wait of a ticket from a shared address, or of a ticket of
    another partition, changes no estimate for the partition. *)
Theorem estimate_ignores_other_samples tracked now st r p :
  isFromSharedIp (heap st r) = true
  \/ getPartitionForRequest (heap st r) <> p ->
  getEstimatedWaitTime now (trackWaitTime tracked st r) p
  = getEstimatedWaitTime now st p.
Proof.
  intros Hother. unfold getEstimatedWaitTime, Queue.trackWaitTime.
  cbn [waitTimes with_waitTimes]. cbv zeta.
  rewrite List.filter_app. cbn [List.filter partition isDeprioritized end_time].
  assert (Hout : ModelFamily_eqb (getPartitionForRequest (heap st r)) p
                 && (now - match queueOutTime (heap st r) with
                           | Some t => t
                           | None => tracked
                           end <? 300 * 1000)
                 && negb (isFromSharedIp (heap st r)) = false).
  { destruct Hother as [Hs|Hp].
    - rewrite Hs. cbn [negb]. apply andb_false_r.
    - destruct (ModelFamily_eqb _ p) eqn:He; [|reflexivity].
      apply ModelFamily_eqb_eq in He. contradiction. }
  rewrite Hout, app_nil_r. reflexivity.
Qed.

End Waiting.

(** *** The sweep of stalled requests *)

Lemma killQueuedRequest_at st r :
  heap (killQueuedRequest st r) r = answerStalled (length (queue st)) (heap st r).
Proof.
  unfold killQueuedRequest, answerStalled.
  destruct (writableEnded _); [reflexivity|].
  destruct (headersSent _); cbn [mutate with_heap heap];
    now rewrite update_same.
Qed.

Lemma killQueuedRequest_other st r x :
  x <> r -> heap (killQueuedRequest st r) x = heap st x.
Proof.
  intros Hx. unfold killQueuedRequest.
  destruct (writableEnded _); [reflexivity|].
  destruct (headersSent _); cbn [mutate with_heap heap];
    now apply update_other.
Qed.

Lemma answerStalled_ends n q : writableEnded (res (answerStalled n q)) = true.
Proof.
  unfold answerStalled. destruct (writableEnded (res q)) eqn:He; [exact He|].
  destruct (headersSent (res q)); reflexivity.
Qed.

Lemma answerStalled_twice n q :
  answerStalled n (answerStalled n q) = answerStalled n q.
Proof.
  unfold answerStalled at 1. now rewrite answerStalled_ends.
Qed.

Lemma kill_all_at l st r :
  heap (fold_left killQueuedRequest l st) r
  = if existsb (Nat.eqb r) l
    then answerStalled (length (queue st)) (heap st r)
    else heap st r.
Proof.
  revert st. induction l as [|a l IH]; intros st; [reflexivity|].
  cbn [fold_left existsb]. rewrite IH.
  destruct (sameQueue_killQueuedRequest st a) as [-> _].
  destruct (Nat.eqb_spec r a) as [->|Hne]; cbn [orb].
  - rewrite killQueuedRequest_at.
    destruct (existsb (Nat.eqb a) l); [apply answerStalled_twice | reflexivity].
  - now rewrite (killQueuedRequest_other st a r Hne).
Qed.

(** X17.  One run of [cleanQueue] leaves the queue as it is.  To every queued
    request that started more than five minutes before the run it does what
    [killQueuedRequest] does, once, so that the response of the request is
    ended afterwards; it changes no other request. *)
Theorem cleanQueue_answers_stalled_requests now st r :
  queue (cleanQueue now st) = queue st
  /\ (In r (queue st) /\ 5 * 60 * 1000 < now - startTime (heap st r) ->
      heap (cleanQueue now st) r = heap (killQueuedRequest st r) r
      /\ writableEnded (res (heap (cleanQueue now st) r)) = true)
  /\ (~ (In r (queue st) /\ 5 * 60 * 1000 < now - startTime (heap st r)) ->
      heap (cleanQueue now st) r = heap st r).
Proof.
  split; [apply sameQueue_cleanQueue|].
  unfold cleanQueue. cbn [heap with_waitTimes]. rewrite kill_all_at.
  rewrite killQueuedRequest_at.
  destruct (existsb (Nat.eqb r) _) eqn:Hex.
  - split.
    + intros _. split; [reflexivity | apply answerStalled_ends].
    + intros Hnot. exfalso. apply Hnot.
      apply existsb_exists in Hex. destruct Hex as (x & Hx & Hrx).
      apply Nat.eqb_eq in Hrx. subst x.
      apply filter_In in Hx. destruct Hx as [Hin Hold].
      apply Z.ltb_lt in Hold. now split.
  - split; [|reflexivity].
    intros [Hin Hold]. exfalso.
    assert (Hex' : existsb (Nat.eqb r)
                     (List.filter
                        (fun req => 5 * 60 * 1000 <? now - startTime (heap st req))
                        (queue st)) = true).
    { apply existsb_exists. exists r. split; [|apply Nat.eqb_refl].
      apply filter_In. split; [exact Hin | now apply Z.ltb_lt]. }
    congruence.
Qed.

(** *** The slots of the shared addresses *)

Section SharedSlots.

Variable SHARED_IP_ADDRESSES : gset string.

Local Abbreviation enqueue := (Queue.enqueue SHARED_IP_ADDRESSES).
Local Abbreviation getIdentifier := (Queue.getIdentifier SHARED_IP_ADDRESSES).
Local Abbreviation sharedGuest := (Samples.sharedGuest SHARED_IP_ADDRESSES).

Lemma sharedGuest_identifier q :
  sharedGuest q = true ->
  getIdentifier q = "shared-ip"
  /\ user q = None
  /\ Queue.isFromSharedIp SHARED_IP_ADDRESSES q = true.
Proof.
  unfold Samples.sharedGuest, Queue.getIdentifier.
  destruct (user q); [discriminate|].
  destruct (risuToken q) as [t|].
  - destruct (truthy (JStr t)); cbn [negb andb]; [discriminate|].
    intros ->. auto.
  - cbn [negb andb]. intros ->. auto.
Qed.

(** X10.  The guests of all shared addresses together hold five slots: while five
    tickets without tokens from shared addresses are queued, a new ticket
    without tokens from any shared address is turned away. *)
Theorem sixth_shared_guest_is_rejected st r :
  (5 <= length (List.filter (fun q => sharedGuest (heap st q)) (queue st)))%nat ->
  sharedGuest (heap st r) = true ->
  retryCount (heap st r) = Some 0 ->
  enqueue st r = Throw (Error "Too many agnai.chat requests are already queued").
Proof.
  intros Hfive Hguest Hnew.
  destruct (sharedGuest_identifier _ Hguest) as (Hid & Hu & Hs).
  assert (Hcount : (5 <= length
                           (List.filter
                              (fun q => sharesIdentifierWith SHARED_IP_ADDRESSES
                                          (heap st r) (heap st q))
                              (queue st)))%nat).
  { eapply Nat.le_trans; [exact Hfive|].
    apply length_filter_implies. intros x Hx.
    destruct (sharedGuest_identifier _ Hx) as (Hix & _).
    unfold sharesIdentifierWith. rewrite Hix, Hid. reflexivity. }
  unfold Queue.enqueue, Queue.admission.
  rewrite Hu, Hs, Hnew. cbn [andb].
  unfold AGNAI_CONCURRENCY_LIMIT.
  destruct (Nat.leb_spec 5
              (length (List.filter
                         (fun q => sharesIdentifierWith SHARED_IP_ADDRESSES
                                     (heap st r) (heap st q))
                         (queue st)))) as [_|Hlt]; [reflexivity | lia].
Qed.

End SharedSlots.

Lemma sixth_shared_guest_is_rejected_witness :
  enqueue Scenario.sharedAddresses Samples.sixShared 5
  = Throw (Error "Too many agnai.chat requests are already queued").
Proof.
  apply (sixth_shared_guest_is_rejected Scenario.sharedAddresses
           Samples.sixShared 5%nat).
  - vm_compute. lia.
  - vm_compute. reflexivity.
  - vm_compute. reflexivity.
Defined.

(** *** The theorems on the sample requests *)

Lemma dequeue_returns_earliest_witness :
  In 0%nat (queue Scenario.scenario4)
  /\ getPartitionForRequest Scenario.claudeFamily Scenario.openAIFamily
       Scenario.palmFamily (heap Scenario.scenario4 0) = turbo
  /\ forall x, In x (queue Scenario.scenario4) ->
               getPartitionForRequest Scenario.claudeFamily
                 Scenario.openAIFamily Scenario.palmFamily
                 (heap Scenario.scenario4 x) = turbo ->
               startTime (heap Scenario.scenario4 0)
               <= startTime (heap Scenario.scenario4 x).
Proof.
  apply (dequeue_returns_earliest Scenario.sharedAddresses Scenario.claudeFamily
           Scenario.openAIFamily Scenario.palmFamily 7000 Scenario.scenario4
           turbo 0%nat).
  vm_compute. reflexivity.
Defined.

Lemma dequeue_removes_first_occurrence_witness :
  exists before after,
    queue Scenario.scenario4 = (before ++ 0%nat :: after)%list
    /\ ~ In 0%nat before
    /\ queue (snd (dequeue Scenario.sharedAddresses Scenario.claudeFamily
                     Scenario.openAIFamily Scenario.palmFamily 7000
                     Scenario.scenario4 turbo))
       = (before ++ after)%list.
Proof.
  apply (dequeue_removes_first_occurrence Scenario.sharedAddresses
           Scenario.claudeFamily Scenario.openAIFamily Scenario.palmFamily
           7000 Scenario.scenario4 turbo 0%nat).
  vm_compute. reflexivity.
Defined.


Lemma enqueue_then_close_restores_queue_witness :
  queue (removeFromQueue Samples.streamingQueued 0) = queue Samples.streamingAlone
  /\ exists st'',
      enqueue Scenario.sharedAddresses
              (removeFromQueue Samples.streamingQueued 0) 0 = Ok st''.
Proof.
  apply (enqueue_then_close_restores_queue Scenario.sharedAddresses
           Samples.streamingAlone 0%nat Samples.streamingQueued).
  - simpl. intros [].
  - vm_compute. reflexivity.
Defined.

Lemma regular_identity_holds_one_slot_witness : 0%nat = 0%nat.
Proof.
  apply (regular_identity_holds_one_slot Scenario.sharedAddresses
           Scenario.claudeFamily Scenario.openAIFamily Scenario.palmFamily
           None Scenario.stackText Scenario.regularQueued 0%nat 0%nat).
  - eapply reachable_step; [apply reachable_start|].
    apply (step_middleware _ _ _ _ _ _
             (Scenario.emptyQueue [Scenario.ticket "198.51.100.4" 1000]) 0%nat).
  - vm_compute. now left.
  - vm_compute. now left.
  - vm_compute. reflexivity.
  - vm_compute. reflexivity.
  - reflexivity.
Defined.

Lemma enqueue_announces_position_witness :
  writtenSince Samples.streamingAlone Samples.streamingQueued 0
  = [Text (": joining queue at position 1" ++ nl ++ nl)]
  /\ heartbeatInterval (heap Samples.streamingQueued 0) = Some Running
  /\ headersSent (res (heap Samples.streamingQueued 0)) = true
  /\ queueOutTime (heap Samples.streamingQueued 0) = Some 0
  /\ onAborted (heap Samples.streamingQueued 0) = true
  /\ forall x, x <> 0%nat ->
               heap Samples.streamingQueued x = heap Samples.streamingAlone x.
Proof.
  apply (enqueue_announces_position Scenario.sharedAddresses
           Samples.streamingAlone 0%nat Samples.streamingQueued).
  vm_compute. reflexivity.
Defined.

Lemma trackWaitTime_records_dequeue_time_witness :
  waitTimes
    (trackWaitTime Scenario.sharedAddresses Scenario.claudeFamily
       Scenario.openAIFamily Scenario.palmFamily 9000
       (snd (dequeue Scenario.sharedAddresses Scenario.claudeFamily
               Scenario.openAIFamily Scenario.palmFamily 7000
               Scenario.scenario4 turbo))
       0)
  = (waitTimes Scenario.scenario4
     ++ [{| partition := turbo;
            start := startTime (heap Scenario.scenario4 0);
            end_time := 7000;
            isDeprioritized :=
              isFromSharedIp Scenario.sharedAddresses
                             (heap Scenario.scenario4 0) |}])%list.
Proof.
  apply (trackWaitTime_records_dequeue_time Scenario.sharedAddresses
           Scenario.claudeFamily Scenario.openAIFamily Scenario.palmFamily
           7000 9000 Scenario.scenario4 turbo 0%nat).
  vm_compute. reflexivity.
Defined.

Lemma estimate_ignores_other_samples_witness :
  getEstimatedWaitTime 10000
    (trackWaitTime Scenario.sharedAddresses Scenario.claudeFamily
       Scenario.openAIFamily Scenario.palmFamily 9000 Scenario.scenario4 0)
    turbo
  = getEstimatedWaitTime 10000 Scenario.scenario4 turbo.
Proof.
  apply (estimate_ignores_other_samples Scenario.sharedAddresses
           Scenario.claudeFamily Scenario.openAIFamily Scenario.palmFamily
           9000 10000 Scenario.scenario4 0%nat turbo).
  left. vm_compute. reflexivity.
Defined.

End QueueMore.

(** ** More properties of the PaLM route *)

Module PalmMore.
Import Js Queue Palm PalmFacts.

(** *** The path *)

Lemma substring_head m k s c t :
  String.substring m (S k) s = String c t -> String.get m s = Some c.
Proof.
  revert s. induction m as [|m IH]; intros s; destruct s as [|a s]; simpl;
    try discriminate.
  - intros [= -> _]. reflexivity.
  - apply IH.
Qed.

Lemma index_occurs n pat s i c t :
  pat = String c t ->
  String.index n pat s = Some i -> String.get i s = Some c.
Proof.
  intros -> Hi. apply String.index_correct1 in Hi.
  cbn [String.length] in Hi. now apply substring_head in Hi.
Qed.

Lemma get_caret i s :
  String.get i s = Some "^"%char -> Samples.hasCaret s = true.
Proof.
  unfold Samples.hasCaret. revert i.
  induction s as [|a s IH]; intros i; [destruct i; discriminate|].
  cbn [list_ascii_of_string existsb]. destruct i as [|i]; simpl.
  - intros [= ->]. reflexivity.
  - intros H. rewrite (IH i H). apply orb_true_r.
Qed.

(** The [replace] of the rewriter leaves every path without a caret as it
    is, whatever the model: its pattern begins with a caret. *)
Lemma rewrittenPath_needs_caret (path_ : string) (req : Request) :
  Samples.hasCaret path_ = false ->
  rewrittenPath path_ req = path_.
Proof.
  intros Hno. unfold rewrittenPath, Js.replace.
  destruct (String.index 0 "^/v1/chat/completions" path_) as [i|] eqn:Hi;
    [|reflexivity].
  apply (index_occurs 0 "^/v1/chat/completions" path_ i "^"%char
                      "/v1/chat/completions" eq_refl) in Hi.
  apply get_caret in Hi. congruence.
Qed.

Lemma set_path_same (c : ClientRequest) : set_path (path c) c = c.
Proof. destruct c; reflexivity. Qed.

(** Stages that keep the path give a pipeline that keeps it. *)
Lemma runPipeline_keeps_path (pipeline : list Rewriter) :
  (forall stage, In stage pipeline ->
                 forall c r, path (fst (fst (stage c r))) = path c) ->
  forall c r, path (fst (fst (runPipeline pipeline c r))) = path c.
Proof.
  induction pipeline as [|stage rest IH]; intros Hkeep c r; [reflexivity|].
  cbn [runPipeline].
  pose proof (Hkeep stage (or_introl eq_refl) c r) as Hstage.
  destruct (stage c r) as [[c' r'] [error|]]; cbn [fst] in *.
  - exact Hstage.
  - rewrite IH; [exact Hstage|].
    intros stage' Hin. apply Hkeep. now right.
Qed.

Section Path.

Variable applyQuotaLimits addKey languageFilter : Rewriter.
Variable blockZoomerOrigins removeOriginHeaders finalizeBody : Rewriter.

Local Abbreviation rewriterPipeline :=
  [applyQuotaLimits; addKey; languageFilter; blockZoomerOrigins;
   removeOriginHeaders; finalizeBody].

Local Abbreviation rewritePalmRequest :=
  (Palm.rewritePalmRequest applyQuotaLimits addKey languageFilter
                           blockZoomerOrigins removeOriginHeaders finalizeBody).

(** X19.  On an outgoing request whose path contains no caret,
    [rewritePalmRequest] itself does not change the path, whatever the model:
    the pattern of its [replace] begins with a caret.  For a request that does
    not stream, the call is the run of the six stages on the outgoing request
    as it was received, the outgoing request being destroyed with the error
    if a stage throws; so only a stage can change the path, and when the
    stages keep the path, the call leaves the path it received. *)
Theorem rewritePalmRequest_keeps_caret_free_path
    (proxyReq : ClientRequest) (req : Request) :
  Samples.hasCaret (path proxyReq) = false ->
  (truthy (stream (body req)) = false ->
   rewritePalmRequest proxyReq req
   = match runPipeline rewriterPipeline proxyReq req with
     | (s, None) => (s, None)
     | ((c, req'), Some error) => ((destroy error c, req'), None)
     end)
  /\ ((forall stage, In stage rewriterPipeline ->
                     forall c r, path (fst (fst (stage c r))) = path c) ->
      path (fst (fst (rewritePalmRequest proxyReq req))) = path proxyReq).
Proof.
  intros Hno.
  assert (Hrun : truthy (stream (body req)) = false ->
                 rewritePalmRequest proxyReq req
                 = match runPipeline rewriterPipeline proxyReq req with
                   | (s, None) => (s, None)
                   | ((c, req'), Some error) => ((destroy error c, req'), None)
                   end).
  { intros Hs. unfold Palm.rewritePalmRequest. rewrite Hs. cbv zeta.
    now rewrite (rewrittenPath_needs_caret _ req Hno), set_path_same. }
  split; [exact Hrun|].
  intros Hkeep.
  destruct (truthy (stream (body req))) eqn:Hs.
  - unfold Palm.rewritePalmRequest. now rewrite Hs.
  - rewrite (Hrun eq_refl).
    pose proof (runPipeline_keeps_path rewriterPipeline Hkeep proxyReq req)
      as Hpath.
    destruct (runPipeline rewriterPipeline proxyReq req) as [[c r] [error|]];
      exact Hpath.
Qed.

End Path.

(** The theorem at the PaLM request of scenario 5, with stages that change
    nothing: the call returns the two requests as it received them. *)
Lemma rewritePalmRequest_keeps_caret_free_path_witness :
  Palm.rewritePalmRequest Scenario.passThrough Scenario.passThrough
    Scenario.passThrough Scenario.passThrough Scenario.passThrough
    Scenario.passThrough Scenario.outgoing Scenario.palmTicket
  = ((Scenario.outgoing, Scenario.palmTicket), None)
  /\ path (fst (fst (Palm.rewritePalmRequest Scenario.passThrough
                       Scenario.passThrough Scenario.passThrough
                       Scenario.passThrough Scenario.passThrough
                       Scenario.passThrough Scenario.outgoing
                       Scenario.palmTicket)))
     = "/v1/chat/completions".
Proof.
  destruct (rewritePalmRequest_keeps_caret_free_path
              Scenario.passThrough Scenario.passThrough Scenario.passThrough
              Scenario.passThrough Scenario.passThrough Scenario.passThrough
              Scenario.outgoing Scenario.palmTicket eq_refl) as [Hrun Hpath].
  split.
  - rewrite (Hrun eq_refl). reflexivity.
  - apply Hpath. intros stage Hin c r.
    repeat (destruct Hin as [<-|Hin]; [reflexivity|]). destruct Hin.
Defined.

(** A stage that edits the path does change a path without a caret: the
    change is the one of the stage, on the path as the call received it. *)
Example stage_changes_caret_free_path :
  path (fst (fst (Palm.rewritePalmRequest Scenario.passThrough
                    Scenario.appendQuery Scenario.passThrough
                    Scenario.passThrough Scenario.passThrough
                    Scenario.passThrough Scenario.outgoing
                    Scenario.palmTicket)))
  = "/v1/chat/completions?key=k".
Proof. vm_compute. reflexivity. Qed.

(** *** The response handler *)

Lemma assoc_set_same k v fields : assoc k (assoc_set k v fields) = v.
Proof.
  induction fields as [|[k0 v0] fields IH]; simpl.
  - now rewrite String.eqb_refl.
  - destruct (String.eqb k k0) eqn:Hk; simpl.
    + now rewrite String.eqb_refl.
    + now rewrite Hk.
Qed.

Lemma assoc_set_differs k k' v fields :
  k <> k' -> assoc k (assoc_set k' v fields) = assoc k fields.
Proof.
  intros Hk. apply assoc_set_other. now apply String.eqb_neq.
Qed.

Section Handler.

Variable promptLogging : bool.

Local Abbreviation palmResponseHandler := (Palm.palmResponseHandler promptLogging).

(** X20.  For a ticket whose inbound dialect is not [openai] the handler sends the
    upstream object with status 200: every field other than [proxy_note] and
    [proxy_tokenizer_debug_info] is as upstream sent it, [proxy_note] names
    the host when prompt logging is enabled, and the debug information of
    the ticket is attached when the ticket carries some. *)
Theorem same_dialect_response_passes_through
    (uuid : string) (now : Z) (req : Request) (fields : list (string * value)) :
  inboundApi req <> openai ->
  exists sent_,
    palmResponseHandler uuid now req (JObj fields)
    = Ok (status_json 200 (JObj sent_) (res req))
    /\ (forall k, k <> "proxy_note" -> k <> "proxy_tokenizer_debug_info" ->
                  assoc k sent_ = assoc k fields)
    /\ (if promptLogging
        then assoc "proxy_note" sent_
             = JStr ("Prompts are logged on this proxy instance. See "
                       ++ template_of (host req) ++ " for more information.")
        else assoc "proxy_note" sent_ = assoc "proxy_note" fields)
    /\ (if truthy (debug req)
        then assoc "proxy_tokenizer_debug_info" sent_ = debug req
        else assoc "proxy_tokenizer_debug_info" sent_
             = assoc "proxy_tokenizer_debug_info" fields).
Proof.
  intros Hin. unfold Palm.palmResponseHandler.
  cbn [typeof String.eqb Ascii.eqb Bool.eqb negb].
  assert (Hsame : forall b : value,
             match inboundApi req with
             | openai => transformPalmResponse uuid now b req
             | _ => Ok b
             end = Ok b)
    by (intros b; destruct (inboundApi req); congruence).
  destruct promptLogging; cbn [setProp bind]; rewrite Hsame; cbn [bind];
    destruct (truthy (debug req)); cbn [setProp bind];
    eexists; (split; [reflexivity|]); repeat split;
    try (intros k Hk1 Hk2);
    rewrite ?assoc_set_same;
    repeat (rewrite assoc_set_differs by (try assumption; discriminate));
    rewrite ?assoc_set_same; reflexivity.
Qed.

(** X21.  A response that went through the transform carries the debug information
    of the ticket as [proxy_tokenizer_debug_info] when the ticket has some,
    and has no such field otherwise. *)
Theorem transformed_response_debug_info uuid now req body_ resp :
  inboundApi req = openai ->
  palmResponseHandler uuid now req body_ = Ok resp ->
  exists fields,
    sent resp = Some (200, JObj fields)
    /\ assoc "proxy_tokenizer_debug_info" fields
       = (if truthy (debug req) then debug req else JUndefined)
    /\ assoc "model" fields = optional_string (model (body req))
    /\ assoc "created" fields = JNum now.
Proof.
  intros Hin. unfold Palm.palmResponseHandler.
  destruct (negb _); [discriminate|].
  destruct (if promptLogging then _ else _) as [body1|]; [|discriminate].
  cbn [bind]. rewrite Hin. unfold transformPalmResponse.
  destruct (getProp body1 "candidates") as [c|]; [|discriminate]. cbn [bind].
  destruct (getIndex c 0) as [c0|]; [|discriminate]. cbn [bind].
  destruct (getProp c0 "output") as [out|]; [|discriminate]. cbn [bind].
  destruct (truthy (debug req)); cbn [bind setProp];
    intros [= <-]; eexists; (split; [reflexivity|]); repeat split; reflexivity.
Qed.

End Handler.

(** *** The theorems on the sample requests *)

Lemma same_dialect_response_passes_through_witness :
  exists sent_,
    Palm.palmResponseHandler true Scenario.uuid 2000
      (set_inboundApi google_palm Scenario.palmTicket)
      (JObj [("candidates", JArr [JObj [("output", JStr "pong")]])])
    = Ok (status_json 200 (JObj sent_)
            (res (set_inboundApi google_palm Scenario.palmTicket)))
    /\ (forall k, k <> "proxy_note" -> k <> "proxy_tokenizer_debug_info" ->
                  assoc k sent_
                  = assoc k [("candidates",
                              JArr [JObj [("output", JStr "pong")]])])
    /\ assoc "proxy_note" sent_
       = JStr "Prompts are logged on this proxy instance. See proxy.example for more information."
    /\ assoc "proxy_tokenizer_debug_info" sent_ = JUndefined.
Proof.
  apply (same_dialect_response_passes_through true Scenario.uuid 2000
           (set_inboundApi google_palm Scenario.palmTicket)
           [("candidates", JArr [JObj [("output", JStr "pong")]])]).
  vm_compute. discriminate.
Defined.

Lemma transformed_response_debug_info_witness :
  exists fields,
    sent Samples.debugResponse = Some (200, JObj fields)
    /\ assoc "proxy_tokenizer_debug_info" fields
       = JObj [("tokenizer", JStr "estimate")]
    /\ assoc "model" fields = JStr "text-bison-001"
    /\ assoc "created" fields = JNum 2000.
Proof.
  apply (transformed_response_debug_info true Scenario.uuid 2000
           Samples.debugTicket Scenario.pong Samples.debugResponse).
  - reflexivity.
  - vm_compute. reflexivity.
Defined.

End PalmMore.

(** ** Properties of the model list *)

Module ModelsFacts.
Import Js Queue Models.

(** X22.  A list that was built with a key is answered again, as it is, to every
    call whose clock is less than a minute after the clock value stored with
    it, whether a key is configured at that call or not; the cache is not
    changed by such a call. *)
Theorem models_are_cached_for_a_minute
    (key_ : string) (checked_ created_ stored_ : Z) (c : Cache)
    (key' : option string) (checked' created' stored' : Z) :
  truthy (JStr key_) = true ->
  1000 * 60 <= checked_ - modelsCacheTime c ->
  checked' - stored_ < 1000 * 60 ->
  let first := getModelsResponse (Some key_) checked_ created_ stored_ c in
  getModelsResponse key' checked' created' stored' (snd first) = first
  /\ fst first
     = JObj [("object", JStr "list");
             ("data",
              JArr [JObj [("id", JStr "text-bison-001");
                          ("object", JStr "model");
                          ("created", JNum created_);
                          ("owned_by", JStr "google");
                          ("permission", JArr []);
                          ("root", JStr "palm");
                          ("parent", JNull)]])].
Proof.
  intros Hkey Hold Hnew. cbv zeta. unfold getModelsResponse at 2 3 4.
  destruct (Z.ltb_spec (checked_ - modelsCacheTime c) (1000 * 60)) as [Hlt|_];
    [lia|].
  rewrite Hkey. cbn [negb fst snd map bisonVariants].
  split; [|reflexivity].
  unfold getModelsResponse. cbn [modelsCacheTime modelsCache].
  destruct (Z.ltb_spec (checked' - stored_) (1000 * 60)) as [_|Hge]; [|lia].
  reflexivity.
Qed.

Lemma getModelsResponse_list key_ checked_ created_ stored_ c :
  1000 * 60 <= checked_ ->
  c = initialCache \/ isModelList (modelsCache c) ->
  isModelList (fst (getModelsResponse key_ checked_ created_ stored_ c))
  /\ (snd (getModelsResponse key_ checked_ created_ stored_ c) = initialCache
      \/ isModelList
           (modelsCache (snd (getModelsResponse key_ checked_ created_ stored_ c)))).
Proof.
  intros Hclock Hinv. unfold getModelsResponse.
  destruct (Z.ltb_spec (checked_ - modelsCacheTime c) (1000 * 60)) as [Hhit|Hmiss].
  - destruct Hinv as [->|Hlist].
    + cbn [initialCache modelsCacheTime] in Hhit. lia.
    + cbn [fst snd]. auto.
  - destruct (negb _); cbn [fst snd modelsCache].
    + split; [eexists; reflexivity | exact Hinv].
    + split; [eexists; reflexivity | right; eexists; reflexivity].
Qed.

(** X23.  From the start of the module on, every answer to a call whose clock is
    at least a minute past the epoch is a list object, with or without a
    key. *)
Theorem models_response_is_a_list (calls : list Call) :
  Forall (fun call => 1000 * 60 <= checked call) calls ->
  Forall isModelList (serve calls initialCache).
Proof.
  assert (Hgen : forall c,
             c = initialCache \/ isModelList (modelsCache c) ->
             Forall (fun call => 1000 * 60 <= checked call) calls ->
             Forall isModelList (serve calls c)).
  { induction calls as [|call rest IH]; intros c Hinv Hclocks; cbn [serve].
    - constructor.
    - inversion Hclocks as [|? ? Hclock Hrest]; subst.
      destruct (getModelsResponse_list (key call) (checked call) (created call)
                  (stored call) c Hclock Hinv) as [Hv Hc'].
      destruct (getModelsResponse (key call) (checked call) (created call)
                  (stored call) c) as [v c']. cbn [fst snd] in *.
      constructor; [exact Hv | now apply IH]. }
  apply Hgen. now left.
Qed.

(** *** The theorems on the sample calls *)

Lemma models_are_cached_for_a_minute_witness :
  let first :=
    getModelsResponse (Some "palm-key") 1700000000000 1700000000001
                      1700000000002 initialCache in
  getModelsResponse None 1700000040000 1700000040001 1700000040002 (snd first)
  = first
  /\ fst first
     = JObj [("object", JStr "list");
             ("data",
              JArr [JObj [("id", JStr "text-bison-001");
                          ("object", JStr "model");
                          ("created", JNum 1700000000001);
                          ("owned_by", JStr "google");
                          ("permission", JArr []);
                          ("root", JStr "palm");
                          ("parent", JNull)]])].
Proof.
  apply (models_are_cached_for_a_minute "palm-key" 1700000000000 1700000000001
           1700000000002 initialCache None 1700000040000 1700000040001
           1700000040002).
  - reflexivity.
  - vm_compute. discriminate.
  - vm_compute. reflexivity.
Defined.

Lemma models_response_is_a_list_witness :
  Forall isModelList
         (serve [Samples.firstCall; Samples.secondCall] initialCache).
Proof.
  apply (models_response_is_a_list [Samples.firstCall; Samples.secondCall]).
  repeat constructor; vm_compute; discriminate.
Defined.

End ModelsFacts.

(** ** Properties of the prompt logger *)

Module LogPromptFacts.
Import Js Queue Palm LogPrompt.

Lemma substring_whole s : String.substring 0 (String.length s) s = s.
Proof.
  induction s as [|a s IH]; [reflexivity|].
  change (String a (String.substring 0 (String.length s) s) = String a s).
  now rewrite IH.
Qed.

Lemma substring_split n s :
  (n <= String.length s)%nat ->
  String.substring 0 n s ++ String.substring n (String.length s - n) s = s.
Proof.
  revert s. induction n as [|n IH]; intros s Hn.
  - rewrite Nat.sub_0_r, substring_whole.
    destruct s; reflexivity.
  - destruct s as [|a s]; [cbn [String.length] in Hn; lia|].
    change (String a (String.substring 0 n s
                      ++ String.substring n (String.length s - n) s)
            = String a s).
    rewrite IH; [reflexivity|]. cbn [String.length] in Hn. lia.
Qed.

Lemma endsWith_suffix s suffix :
  endsWith s suffix = true -> exists before, s = before ++ suffix.
Proof.
  unfold endsWith. intros H. apply andb_true_iff in H. destruct H as [Hlen Heq].
  apply Nat.leb_le in Hlen. apply String.eqb_eq in Heq.
  exists (String.substring 0 (String.length s - String.length suffix) s).
  assert (Hle : (String.length s - String.length suffix <= String.length s)%nat)
    by lia.
  pose proof (substring_split _ s Hle) as Hsplit.
  replace (String.length s - (String.length s - String.length suffix))%nat
    with (String.length suffix) in Hsplit by lia.
  rewrite Heq in Hsplit. now symmetry.
Qed.

Lemma append_associative (a b c : string) : (a ++ b) ++ c = a ++ (b ++ c).
Proof.
  induction a as [|x a IH]; [reflexivity|].
  change (String x ((a ++ b) ++ c) = String x (a ++ (b ++ c))).
  now rewrite IH.
Qed.

Lemma concat_cons sep z (l : list string) :
  l <> [] -> String.concat sep (z :: l) = z ++ sep ++ String.concat sep l.
Proof. destruct l; [congruence | reflexivity]. Qed.

Lemma concat_app sep (a b : list string) x y :
  String.concat sep ((a ++ [x]) ++ y :: b)
  = String.concat sep (a ++ [x]) ++ sep ++ String.concat sep (y :: b).
Proof.
  induction a as [|z a IH].
  - reflexivity.
  - change (String.concat sep (z :: ((a ++ [x]) ++ y :: b))
            = String.concat sep (z :: (a ++ [x])) ++ sep
                ++ String.concat sep (y :: b)).
    rewrite (concat_cons sep z ((a ++ [x]) ++ y :: b))
      by (destruct a; discriminate).
    rewrite (concat_cons sep z (a ++ [x])) by (destruct a; discriminate).
    rewrite IH, !append_associative. reflexivity.
Qed.

(** X24.  Flattening a conversation that is continued by further messages gives
    the flattened conversation, a line break, and the flattened
    continuation; the empty conversation flattens to the empty text. *)
Theorem flattenMessages_continues (a b : list OaiMessage) (x y : OaiMessage) :
  flattenMessages ((a ++ [x]) ++ y :: b)
  = flattenMessages (a ++ [x]) ++ nl ++ flattenMessages (y :: b)
  /\ flattenMessages [] = ""
  /\ flattenMessages [x] = role x ++ ": " ++ content x.
Proof.
  unfold flattenMessages. split; [|split; reflexivity].
  rewrite !map_app. cbn [map]. apply concat_app.
Qed.

Section Logger.

Variable trim : string -> string.
Variable promptLogging : bool.

Local Abbreviation getResponseForModel := (LogPrompt.getResponseForModel trim).
Local Abbreviation logPrompt := (LogPrompt.logPrompt trim promptLogging).

(** X25.  Whatever the logger records, it records with prompt logging enabled,
    for a request whose original URL ends with [/v1/chat/completions] and an
    upstream body of type object; the entry has the model and the endpoint
    of the request, its messages and their flattening, and the response
    text that [getResponseForModel] reads from the body. *)
Theorem logPrompt_records_completions_only req responseBody entry :
  logPrompt req responseBody = Ok (Some entry) ->
  promptLogging = true
  /\ (exists before, originalUrl req = before ++ "/v1/chat/completions")
  /\ typeof responseBody = "object"
  /\ model (body (request req)) = Some (entryModel entry)
  /\ endpoint entry = api req
  /\ promptRaw entry = messages req
  /\ promptFlattened entry = flattenMessages (messages req)
  /\ getResponseForModel (entryModel entry) responseBody = Ok (response entry).
Proof.
  unfold LogPrompt.logPrompt.
  destruct promptLogging; cbn [negb]; [|discriminate].
  destruct (String.eqb (typeof responseBody) "object") eqn:Htype;
    cbn [negb]; [|discriminate].
  destruct (endsWith (originalUrl req) COMPLETE_ENDPOINT) eqn:Hurl;
    cbn [negb]; [|discriminate].
  destruct (model (body (request req))) as [model_|]; [|discriminate].
  destruct (getResponseForModel model_ responseBody) as [response_|] eqn:Hr;
    cbn [bind]; [|discriminate].
  intros [= <-]. cbn [entryModel endpoint promptRaw promptFlattened response].
  split; [reflexivity|]. split; [now apply endsWith_suffix|].
  split; [now apply String.eqb_eq|]. repeat split; auto.
Qed.

(** X26.  For a model whose name does not begin with [claude], the response text
    that the logger reads from the object that [transformPalmResponse] builds
    is the output of the first PaLM candidate; from a PaLM body that has no
    [choices] the read raises a [TypeError]. *)
Theorem logged_response_of_transformed_body
    (uuid : string) (now : Z) (req : Request) (model_ : string)
    (palmRespBody transformed : value) :
  String.prefix "claude" model_ = false ->
  transformPalmResponse uuid now palmRespBody req = Ok transformed ->
  getResponseForModel model_ transformed
  = bind (getProp palmRespBody "candidates") (fun candidates =>
    bind (getIndex candidates 0) (fun candidate =>
      getProp candidate "output"))
  /\ (forall fields,
        palmRespBody = JObj fields -> assoc "choices" fields = JUndefined ->
        getResponseForModel model_ palmRespBody = Throw (TypeError "0")).
Proof.
  intros Hmodel Ht. split.
  - unfold transformPalmResponse in Ht.
    destruct (getProp palmRespBody "candidates") as [c|]; [|discriminate].
    cbn [bind] in *.
    destruct (getIndex c 0) as [c0|]; [|discriminate]. cbn [bind] in *.
    destruct (getProp c0 "output") as [out|]; [|discriminate]. cbn [bind] in *.
    injection Ht as <-.
    unfold LogPrompt.getResponseForModel. rewrite Hmodel. reflexivity.
  - intros fields -> Hnone.
    unfold LogPrompt.getResponseForModel. rewrite Hmodel.
    cbn [getProp bind]. rewrite Hnone. reflexivity.
Qed.

End Logger.

(** *** The theorems on the sample request *)

Lemma logPrompt_records_completions_only_witness :
  true = true
  /\ (exists before,
         originalUrl Samples.loggedPalm = before ++ "/v1/chat/completions")
  /\ typeof Samples.transformedPong = "object"
  /\ model (body (request Samples.loggedPalm))
     = Some (entryModel Samples.pongEntry)
  /\ endpoint Samples.pongEntry = api Samples.loggedPalm
  /\ promptRaw Samples.pongEntry = messages Samples.loggedPalm
  /\ promptFlattened Samples.pongEntry
     = flattenMessages (messages Samples.loggedPalm)
  /\ LogPrompt.getResponseForModel Samples.trimSpaces
       (entryModel Samples.pongEntry) Samples.transformedPong
     = Ok (response Samples.pongEntry).
Proof.
  apply (logPrompt_records_completions_only Samples.trimSpaces true
           Samples.loggedPalm Samples.transformedPong Samples.pongEntry).
  vm_compute. reflexivity.
Defined.

Lemma logged_response_of_transformed_body_witness :
  LogPrompt.getResponseForModel Samples.trimSpaces "text-bison-001"
    Samples.transformedPong
  = bind (getProp Scenario.pong "candidates") (fun candidates =>
    bind (getIndex candidates 0) (fun candidate =>
      getProp candidate "output"))
  /\ (forall fields,
        Scenario.pong = JObj fields -> assoc "choices" fields = JUndefined ->
        LogPrompt.getResponseForModel Samples.trimSpaces "text-bison-001"
          Scenario.pong
        = Throw (TypeError "0")).
Proof.
  apply (logged_response_of_transformed_body Samples.trimSpaces
           Scenario.uuid 2000 Scenario.palmTicket "text-bison-001"
           Scenario.pong Samples.transformedPong).
  - reflexivity.
  - vm_compute. reflexivity.
Defined.

End LogPromptFacts.
